(** * fastapi-celery-project: the [divide] task and the endpoint smoke test

    A shallow embedding of [project/users/tasks.py] and
    [tests/users/test_views.py].

    - Python values are the ones a Celery worker receives through the JSON
      serializer: [None], booleans, unbounded integers, binary64 floats,
      strings, lists and dicts.
    - Floats are the Standard Library's [spec_float] at precision 53 and
      maximal exponent 1024 (IEEE 754 binary64).
    - Statements run in an exception-and-trace monad: a computation takes the
      trace of observable events so far and gives back the extended trace and
      either a value or the exception that escaped.  The trace is kept when
      an exception is raised. *)

From Stdlib Require Import ZArith Lia Bool String List.
From Stdlib Require Import SpecFloat.
From stdpp Require Import base option list gmap strings.

Local Open Scope Z_scope.

(* ===================================================================== *)
(** ** Python values and exceptions *)
(* ===================================================================== *)

Inductive pyexn : Type :=
  | ZeroDivisionError
  | OverflowError
  | TypeError
  | AssertionError
  | NoMatchFound
  | InvalidRequestError
  | IntegrityError.

#[global] Instance pyexn_eq_dec : EqDecision pyexn.
Proof. solve_decision. Defined.

#[warnings="-register-all"]
Inductive pyval : Type :=
  | PyNone
  | PyBool (b : bool)
  | PyInt (z : Z)
  | PyFloat (f : spec_float)
  | PyStr (s : string)
  | PyList (l : list pyval)
  | PyDict (d : list (string * pyval)).

(** What a call does: it returns a value or lets an exception escape. *)
Inductive outcome (A : Type) : Type :=
  | Returned (a : A)
  | Raised (e : pyexn).
Arguments Returned {A} a.
Arguments Raised {A} e.

Definition returns {A} (o : outcome A) : Prop := exists a, o = Returned a.

(** The numeric types of the model: [int], its subclass [bool], [float]. *)
Definition is_numeric (v : pyval) : bool :=
  match v with
  | PyBool _ | PyInt _ | PyFloat _ => true
  | _ => false
  end.

Definition is_int (v : pyval) : bool :=
  match v with
  | PyBool _ | PyInt _ => true
  | _ => false
  end.

(* ===================================================================== *)
(** ** binary64 arithmetic *)
(* ===================================================================== *)

Module Float64.

Definition prec : Z := 53.
Definition emax : Z := 1024.

Definition div : spec_float -> spec_float -> spec_float := SFdiv prec emax.

(** C's [b == 0.0]: true on both zeros, false on NaN. *)
Definition is_zero (f : spec_float) : bool :=
  match f with
  | S754_zero _ => true
  | _ => false
  end.

Definition is_infinite (f : spec_float) : bool :=
  match f with
  | S754_infinity _ => true
  | _ => false
  end.

(** An integer as an unrounded binary number with exponent 0. *)
Definition raw_of_Z (z : Z) : spec_float :=
  match z with
  | Z0 => S754_zero false
  | Zpos p => S754_finite false p 0
  | Zneg p => S754_finite true p 0
  end.

(** The integer rounded to the nearest double, ties to even. *)
Definition of_Z (z : Z) : spec_float := binary_normalize prec emax z 0 false.

(** The correctly rounded quotient of two integers. *)
Definition div_Z (a b : Z) : spec_float := div (raw_of_Z a) (raw_of_Z b).

Definition is_finite (f : spec_float) : bool :=
  match f with
  | S754_zero _ | S754_finite _ _ _ => true
  | _ => false
  end.

(** A double in canonical form: normalised mantissa and exponent in range. *)
Definition valid (f : spec_float) : bool := valid_binary prec emax f.

(** Every finite double is a whole number of units of [2^-1074], the
    smallest subnormal: the value of [f] is [units f * 2^-1074]. *)
Definition units (f : spec_float) : Z :=
  match f with
  | S754_finite s m e => (if s then Z.neg m else Z.pos m) * 2 ^ (e + 1074)
  | _ => 0
  end.

(** The value of [f] is exactly the rational [a / b]. *)
Definition represents (f : spec_float) (a b : Z) : Prop :=
  units f * b = a * 2 ^ 1074.

(** The distance between the value of [f] and [a / b], in units of
    [2^-1074 / |b|]. *)
Definition distance (f : spec_float) (a b : Z) : Z :=
  Z.abs (units f * b - a * 2 ^ 1074).

(** The doubles [0.5] and [5.0]. *)
Definition half : spec_float := S754_finite false 4503599627370496 (-53).
Definition five : spec_float := S754_finite false 5629499534213120 (-50).

End Float64.

(* ===================================================================== *)
(** ** The [/] operator *)
(* ===================================================================== *)

(** [PyLong_AsDouble]: "int too large to convert to float". *)
Definition PyLong_AsDouble (z : Z) : outcome spec_float :=
  let f := Float64.of_Z z in
  if Float64.is_infinite f then Raised OverflowError else Returned f.

(** [int.__truediv__] on two integers: the zero test comes first, then the
    correctly rounded quotient, "integer division result too large for a
    float" when it is out of range. *)
Definition long_true_divide (a b : Z) : outcome pyval :=
  if b =? 0 then Raised ZeroDivisionError
  else
    let f := Float64.div_Z a b in
    if Float64.is_infinite f then Raised OverflowError
    else Returned (PyFloat f).

Definition as_long (v : pyval) : option Z :=
  match v with
  | PyInt z => Some z
  | PyBool b => Some (Z.b2z b)
  | _ => None
  end.

(** A slot answers [None] for Python's [NotImplemented]. *)
Definition long_slot (v w : pyval) : option (outcome pyval) :=
  match as_long v, as_long w with
  | Some a, Some b => Some (long_true_divide a b)
  | _, _ => None
  end.

Definition convert_to_double (v : pyval) : option (outcome spec_float) :=
  match v with
  | PyFloat f => Some (Returned f)
  | PyInt z => Some (PyLong_AsDouble z)
  | PyBool b => Some (PyLong_AsDouble (Z.b2z b))
  | _ => None
  end.

(** [float.__truediv__] and [float.__rtruediv__]: both operands are converted
    before the divisor is tested. *)
Definition float_slot (v w : pyval) : option (outcome pyval) :=
  match convert_to_double v with
  | None => None
  | Some (Raised e) => Some (Raised e)
  | Some (Returned a) =>
      match convert_to_double w with
      | None => None
      | Some (Raised e) => Some (Raised e)
      | Some (Returned b) =>
          if Float64.is_zero b then Some (Raised ZeroDivisionError)
          else Some (Returned (PyFloat (Float64.div a b)))
      end
  end.

Inductive slot : Type := SlotLong | SlotFloat.

#[global] Instance slot_eq_dec : EqDecision slot.
Proof. solve_decision. Defined.

Definition nb_true_divide (v : pyval) : option slot :=
  match v with
  | PyBool _ | PyInt _ => Some SlotLong
  | PyFloat _ => Some SlotFloat
  | _ => None
  end.

Definition call_slot (s : slot) : pyval -> pyval -> option (outcome pyval) :=
  match s with
  | SlotLong => long_slot
  | SlotFloat => float_slot
  end.

(** [x / y]: the left operand's slot, then the right operand's when it is a
    different one, and [TypeError] when neither takes the operands. *)
Definition truediv (x y : pyval) : outcome pyval :=
  let slotv := nb_true_divide x in
  let slotw :=
    match nb_true_divide y with
    | Some s => if decide (slotv = Some s) then None else Some s
    | None => None
    end in
  match slotv ≫= (fun s => call_slot s x y) with
  | Some r => r
  | None =>
      match slotw ≫= (fun s => call_slot s x y) with
      | Some r => r
      | None => Raised TypeError
      end
  end.

(** Python's [y == 0] on the numeric types. *)
Definition is_zero (y : pyval) : bool :=
  match y with
  | PyInt z => z =? 0
  | PyBool b => negb b
  | PyFloat f => Float64.is_zero f
  | _ => false
  end.

(* ===================================================================== *)
(** ** Effects: the trace of a run *)
(* ===================================================================== *)

Inductive event : Type :=
  | EvPrint (line : string)
  | EvSleep (secs : Z).

(** Chronological: the head is the oldest event. *)
Definition trace : Type := list event.

(** A statement over a state [S]: the state after it, and its outcome.  The
    state reached when an exception escapes is kept. *)
Definition M (S A : Type) : Type := S -> S * outcome A.

#[global] Instance M_ret {S} : MRet (M S) := fun _ a s => (s, Returned a).

#[global] Instance M_bind {S} : MBind (M S) := fun _ _ k m s =>
  match m s with
  | (s', Returned a) => k a s'
  | (s', Raised e) => (s', Raised e)
  end.

Definition raise {S A} (e : pyexn) : M S A := fun s => (s, Raised e).

Definition lift {S A} (o : outcome A) : M S A := fun s => (s, o).

(** [assert c] *)
Definition assert {S} (c : bool) : M S unit :=
  if c then mret tt else raise AssertionError.

(** The task runs over the trace of its events. *)
Definition Py (A : Type) : Type := M trace A.

Definition emit (e : event) : Py unit := fun t => (t ++ [e], Returned tt).

Definition print (s : string) : Py unit := emit (EvPrint s).

Definition time_sleep (secs : Z) : Py unit := emit (EvSleep secs).

(** The lines written to standard output. *)
Fixpoint stdout_of (t : trace) : list string :=
  match t with
  | [] => []
  | EvPrint s :: t' => s :: stdout_of t'
  | EvSleep _ :: t' => stdout_of t'
  end.

(** The time spent sleeping. *)
Fixpoint slept (t : trace) : Z :=
  match t with
  | [] => 0
  | EvPrint _ :: t' => slept t'
  | EvSleep n :: t' => n + slept t'
  end.

(* ===================================================================== *)
(** ** project/users/tasks.py *)
(* ===================================================================== *)

(** [[
    @shared_task
    def divide(x, y):
        import time
        print('shared task')

        time.sleep(5)
        return x / y
    ]] *)
Definition divide (x y : pyval) : Py pyval :=
  print "shared task";;
  time_sleep 5;;
  lift (truediv x y).

(** The events of one call, from an empty trace. *)
Definition events_of (x y : pyval) : trace := fst (divide x y []).
Definition result_of (x y : pyval) : outcome pyval := snd (divide x y []).

(** The two events every call adds to the trace. *)
Definition divide_events : trace := [EvPrint "shared task"; EvSleep 5].

(* ===================================================================== *)
(** ** The quotient, as arithmetic *)
(* ===================================================================== *)

(** What "the quotient x / y" is, stated without the division algorithm:
    IEEE 754 rounding to nearest, ties to even, of the exact rational
    quotient.  The operator of the code is compared with it below. *)
Module Rounding.

(** The integer nearest to [n / d], the even one when two are as near. *)
Definition round_half_even (n d : Z) : Z :=
  let q := n / d in
  match 2 * (n mod d) ?= d with
  | Lt => q
  | Eq => if Z.even q then q else q + 1
  | Gt => q + 1
  end.

(** The unit in the last place of [a / b] is [2^(k - 1074)] for
    [k = ulp_shift a b]: quotients below [2^-1021] are counted in units of
    [2^-1074], larger ones keep 53 significant bits. *)
Definition ulp_shift (a b : Z) : Z :=
  Z.max (Z.log2 (a * 2 ^ 1074 / b) - 52) 0.

(** The double nearest to [a / b] for positive [a] and [b], with sign [s]:
    the quotient is rounded to a whole number [r] of units in the last place;
    a result of [2^1024] or more is infinite. *)
Definition nearest_double (s : bool) (a b : Z) : spec_float :=
  let k := ulp_shift a b in
  let r := round_half_even (a * 2 ^ 1074) (b * 2 ^ k) in
  if r =? 0 then S754_zero s
  else if 2 ^ 2098 <=? r * 2 ^ k then S754_infinity s
  else if r =? 2 ^ 53 then S754_finite s (Z.to_pos (2 ^ 52)) (k - 1073)
  else S754_finite s (Z.to_pos r) (k - 1074).

(** The double nearest to [a / b] for integers, [b] not zero. *)
Definition quotient_Z (a b : Z) : spec_float :=
  if a =? 0 then S754_zero (b <? 0)
  else nearest_double (xorb (a <? 0) (b <? 0)) (Z.abs a) (Z.abs b).

(** A number as a double: an integer is rounded to the nearest one, and has
    none when that is out of range. *)
Definition to_double (v : pyval) : option spec_float :=
  match v with
  | PyFloat f => Some f
  | PyInt z =>
      let f := quotient_Z z 1 in
      if Float64.is_infinite f then None else Some f
  | PyBool b =>
      let f := quotient_Z (Z.b2z b) 1 in
      if Float64.is_infinite f then None else Some f
  | _ => None
  end.

(** The quotient [x / y] of two numbers: of two integers, the double nearest
    to the exact quotient; otherwise the IEEE 754 quotient of the operands
    as doubles.  [None] when an integer or the quotient of two integers is
    beyond the range of a double. *)
Definition quotient (x y : pyval) : option spec_float :=
  match as_long x, as_long y with
  | Some a, Some b =>
      let f := quotient_Z a b in
      if Float64.is_infinite f then None else Some f
  | _, _ =>
      match to_double x, to_double y with
      | Some a, Some b => Some (Float64.div a b)
      | _, _ => None
      end
  end.

(** Python's [a // b] on integers, for comparison. *)
Definition floordiv (a b : Z) : Z := a / b.

(** Where [n / d] lies between two consecutive integers. *)
Definition loc_of (n d : Z) : location :=
  if n mod d =? 0 then loc_Exact else loc_Inexact (2 * (n mod d) ?= d).

(** The quotient [n / d] with its round and sticky bits. *)
Definition rec_of (n d : Z) : shr_record :=
  shr_record_of_loc (n / d) (loc_of n d).

(** The exponent at which the division algorithm takes its first quotient,
    counted from [-1074]. *)
Definition div_shift (a b : Z) : Z :=
  Z.min (Z.max (Z.log2 a - Z.log2 b - 53) (-1074)) 0 + 1074.

(** The least magnitude that has no double: [2^1024 - 2^970], half a unit in
    the last place above the largest double. *)
Definition overflow_threshold : Z := 2 ^ 1024 - 2 ^ 970.

(** An integer operand beyond the range of a double. *)
Definition too_large (x : pyval) : bool :=
  match as_long x with
  | Some z => overflow_threshold <=? Z.abs z
  | None => false
  end.

(** The operands for which [x / y] has no double: two integers whose
    quotient rounds beyond the largest double; otherwise an integer operand
    that does not convert. *)
Definition out_of_range (x y : pyval) : bool :=
  match as_long x, as_long y with
  | Some a, Some b => overflow_threshold * Z.abs b <=? Z.abs a
  | _, _ => too_large x || too_large y
  end.

(** Python's [-r] on the outcome of a division: a float is negated, an
    exception stays. *)
Definition negate (o : outcome pyval) : outcome pyval :=
  match o with
  | Returned (PyFloat f) => Returned (PyFloat (SFopp f))
  | _ => o
  end.

End Rounding.
(* ===================================================================== *)
(** ** tests/users/test_views.py *)
(* ===================================================================== *)

Module TestViews.

(** *** The web boundary *)

Record Response : Type := { status_code : Z }.

(** Modelled from the spec: the router of [project/users] is not in the
    sources; it is "an external component mapping named routes to URL
    paths", taken as it answers a URL-reversal lookup: the path of the
    named route, or the error of the lookup. *)
Record APIRouter : Type := { url_path_for : string -> outcome string }.

(** Modelled from the spec: the HTTP test client fixture is "externally
    provided"; it is taken as it answers a GET on a path.  What the
    application behind it does with the request is not in the sources. *)
Record TestClient : Type := { get : string -> Response }.

(** *** The persistence boundary *)

(** Modelled from the spec: [project.users.models.User] is not in the
    sources; "attributes username (string), email (string), id (assigned by
    the persistence layer on insert)". *)
Record User : Type := {
  username : string;
  email : string;
  id : option Z
}.

(** ORM objects live in a heap: the test and the session hold the same
    object. *)
Definition loc : Type := nat.

Record Session : Type := {
  in_transaction : bool;
  pending : list loc
}.

Record Database : Type := {
  rows : list User;
  sequence : Z
}.

Record World : Type := {
  heap : gmap loc User;
  db_session : Session;
  database : Database
}.

Definition set_session (s : Session) (w : World) : World :=
  {| heap := heap w; db_session := s; database := database w |}.

(** [User(username=..., email=...)]: a new transient object, [id] unset. *)
Definition User_new (username email : string) : M World loc := fun w =>
  let l := fresh (dom (heap w)) in
  ({| heap := <[l := {| username := username; email := email; id := None |}]> (heap w);
      db_session := db_session w;
      database := database w |}, Returned l).

(** A statement sent outside a transaction begins one on the session. *)
Definition autobegin (w : World) : World :=
  set_session {| in_transaction := true; pending := pending (db_session w) |} w.

(** [user.id], on an object of the external session.  The commit that
    stored the object has expired its attributes: reading one reloads the
    row, and that query begins a transaction on the session.  An object that
    was never stored has nothing to reload and answers [None]. *)
Definition getattr_id (l : loc) : M World (option Z) := fun w =>
  match heap w !! l ≫= id with
  | Some n => (autobegin w, Returned (Some n))
  | None => (w, Returned None)
  end.

(** Truth value of an optional integer: [None] and [0] are false. *)
Definition truthy (v : option Z) : bool :=
  match v with
  | Some n => negb (n =? 0)
  | None => false
  end.

(** The [with] statement: the manager expression, [__enter__], the body,
    and [__exit__] on every way out of the body; an exception is swallowed
    only when [__exit__] answers true. *)
Record ContextManager (S : Type) : Type := {
  cm_enter : M S unit;
  cm_exit : option pyexn -> M S bool
}.
Arguments cm_enter {S} _.
Arguments cm_exit {S} _ _.

Definition run_body {S} (mgr : ContextManager S) (body : M S unit) : M S unit :=
  fun s =>
    match body s with
    | (s', Returned _) => (cm_exit mgr None;; mret tt) s'
    | (s', Raised e) =>
        match cm_exit mgr (Some e) s' with
        | (s'', Returned true) => (s'', Returned tt)
        | (s'', Returned false) => (s'', Raised e)
        | (s'', Raised e') => (s'', Raised e')
        end
    end.

Definition with_ {S} (expr : M S (ContextManager S)) (body : M S unit) : M S unit :=
  mgr ← expr;
  cm_enter mgr;;
  run_body mgr body.

Section Persistence.

(** The integrity constraints of the users table are not given: the rows
    already stored and the candidate row decide. *)
Variable constraint : list User -> User -> bool.

(** Insert the pending objects in the order they were added; each
    receives the next identifier, which is written back to the object.
    [None] when a row is refused; nothing is written then. *)
Fixpoint flush (ls : list loc) (h : gmap loc User) (db : Database)
  : option (gmap loc User * Database) :=
  match ls with
  | [] => Some (h, db)
  | l :: ls' =>
      match h !! l with
      | None => flush ls' h db
      | Some u =>
          if constraint (rows db) u then
            let u' := {| username := username u; email := email u;
                         id := Some (sequence db) |} in
            flush ls' (<[l := u']> h)
              {| rows := rows db ++ [u']; sequence := sequence db + 1 |}
          else None
      end
  end.

Definition rollback : M World unit := fun w =>
  (set_session {| in_transaction := false; pending := [] |} w, Returned tt).

(** A refused insert rolls the transaction back before the error
    escapes. *)
Definition commit : M World unit := fun w =>
  match flush (pending (db_session w)) (heap w) (database w) with
  | Some (h, db) =>
      ({| heap := h;
          db_session := {| in_transaction := false; pending := [] |};
          database := db |}, Returned tt)
  | None => (rollback;; raise IntegrityError) w
  end.

(** Modelled from the spec: the session's transaction as a scope,
    "begin, add, implicit commit/release on scope exit", "with guaranteed
    release on all exit paths". *)
Definition SessionTransaction : ContextManager World :=
  {| cm_enter := mret tt;
     cm_exit exc :=
       match exc with
       | None => commit;; mret false
       | Some _ => rollback;; mret false
       end |}.

(** [db_session.begin()] *)
Definition begin : M World (ContextManager World) := fun w =>
  if in_transaction (db_session w) then (w, Raised InvalidRequestError)
  else
    (set_session {| in_transaction := true; pending := pending (db_session w) |} w,
     Returned SessionTransaction).

(** [db_session.add(user)]: the object joins the new objects of the
    session, once. *)
Definition add (l : loc) : M World unit := fun w =>
  let new := pending (db_session w) in
  (set_session {| in_transaction := in_transaction (db_session w);
                  pending := if decide (l ∈ new) then new else new ++ [l] |} w,
   Returned tt).

Variable users_router : APIRouter.

(** [client.get(path)] *)
Definition client_get (client : TestClient) (p : string) : M World Response :=
  mret (get client p).

(** [[
    # test view
    response = client.get(users_router.url_path_for("form_example_get"))
    assert response.status_code == 200
    ]] *)
Definition test_view (client : TestClient) : M World unit :=
  p ← lift (url_path_for users_router "form_example_get");
  response ← client_get client p;
  assert (status_code response =? 200).

(** [[
    user = User(username="test", email="test@example.com")
    with db_session.begin():
        db_session.add(user)
    ]] *)
Definition insert_user : M World loc :=
  user ← User_new "test" "test@example.com";
  with_ begin (add user);;
  mret user.

(** [[
    # test db
    ...
    assert user.id
    ]] *)
Definition test_db : M World unit :=
  user ← insert_user;
  uid ← getattr_id user;
  assert (truthy uid).

Definition test_pytest_setup (client : TestClient) : M World unit :=
  test_view client;;
  test_db.

End Persistence.

(** No transaction of the session is open. *)
Definition released (w : World) : Prop :=
  in_transaction (db_session w) = false.

(** The object at [l] carries an identifier. *)
Definition has_id (h : gmap loc User) (l : loc) : Prop :=
  exists n, h !! l ≫= id = Some n.

(** A router, a client and a database to run the test on. *)
Definition example_router : APIRouter :=
  {| url_path_for n :=
       if decide (n = "form_example_get") then Returned "/users/form/"
       else Raised NoMatchFound |}.

Definition example_client : TestClient :=
  {| get p := {| status_code := if decide (p = "/users/form/") then 200 else 404 |} |}.

Definition empty_world : World :=
  {| heap := ∅;
     db_session := {| in_transaction := false; pending := [] |};
     database := {| rows := []; sequence := 1 |} |}.

(** Usernames are unique. *)
Definition unique_username (rs : list User) (u : User) : bool :=
  forallb (fun r => negb (bool_decide (username r = username u))) rs.

(** Ways for the test to fail: a view that answers 500, a table that
    already holds the user ["test"], a sequence that starts at 0. *)
Definition broken_client : TestClient :=
  {| get p := {| status_code := 500 |} |}.

Definition taken_world : World :=
  {| heap := ∅;
     db_session := {| in_transaction := false; pending := [] |};
     database :=
       {| rows := [ {| username := "test"; email := "other@example.com";
                       id := Some 1 |} ];
          sequence := 2 |} |}.

Definition zero_world : World :=
  {| heap := ∅;
     db_session := {| in_transaction := false; pending := [] |};
     database := {| rows := []; sequence := 0 |} |}.

(** The object the test constructs, and the same once stored under [n]. *)
Definition new_user : User :=
  {| username := "test"; email := "test@example.com"; id := None |}.

Definition stored_user (n : Z) : User :=
  {| username := "test"; email := "test@example.com"; id := Some n |}.

End TestViews.

(** Unfold the plumbing of the monad. *)
Ltac run_M :=
  repeat (unfold mbind, M_bind, mret, M_ret, raise, lift, assert; simpl).

(* ===================================================================== *)
(** * The division algorithm rounds to nearest *)
(* ===================================================================== *)

Module RoundingFacts.
Import Rounding.

(** ** Bits and shifts *)

Lemma digits2_pos_size (p : positive) : digits2_pos p = Pos.size p.
Proof. induction p; simpl; congruence. Qed.

Lemma Zdigits2_log2 (m : Z) : 0 < m -> Zdigits2 m = Z.log2 m + 1.
Proof.
  destruct m as [|p|p]; try lia. intros _. simpl.
  rewrite digits2_pos_size. destruct p; simpl; lia.
Qed.

Lemma iter_pos_iter {A} (f : A -> A) (p : positive) :
  forall x, SpecFloat.iter_pos f p x = Pos.iter f x p.
Proof.
  induction p as [p IH|p IH|]; intros x; cbn [SpecFloat.iter_pos Pos.iter].
  - now rewrite !IH, <- !Pos.iter_swap.
  - now rewrite !IH.
  - reflexivity.
Qed.

Lemma iter_xO_pow2 (p d : positive) :
  Z.pos (Pos.iter xO p d) = Z.pos p * 2 ^ Z.pos d.
Proof.
  induction d as [|d IH] using Pos.peano_ind.
  - simpl Pos.iter. lia.
  - rewrite Pos.iter_succ, Pos2Z.inj_succ, Z.pow_succ_r, Pos2Z.inj_xO, IH by lia.
    ring.
Qed.

Lemma fexp_eq (k : Z) : fexp 53 1024 k = Z.max (k - 53) (-1074).
Proof. reflexivity. Qed.

Lemma rec_of_bits (n d : Z) : 0 <= n -> 0 < d ->
  rec_of n d =
  {| shr_m := n / d; shr_r := d <=? 2 * (n mod d);
     shr_s := negb (n mod d =? 0) && negb (2 * (n mod d) =? d) |}.
Proof.
  intros Hn Hd. unfold rec_of, loc_of.
  set (r := n mod d).
  destruct (Z.eqb_spec r 0) as [H0|H0]; cbn [negb andb].
  - destruct (Z.leb_spec d (2 * r)); [lia|reflexivity].
  - destruct (Z.compare_spec (2 * r) d) as [H|H|H];
      destruct (Z.leb_spec d (2 * r)); try lia;
      destruct (Z.eqb_spec (2 * r) d); try lia; reflexivity.
Qed.

Lemma shr_1_spec (m : Z) (r s : bool) : 0 <= m ->
  shr_1 {| shr_m := m; shr_r := r; shr_s := s |} =
  {| shr_m := m / 2; shr_r := Z.odd m; shr_s := r || s |}.
Proof.
  intros Hm. rewrite <- Z.div2_div.
  destruct m as [|[p|p|]|p]; try lia; reflexivity.
Qed.

(** One shift to the right halves the unit: the record of [n / d] becomes
    the record of [n / (2 d)]. *)
Lemma shr_1_rec_of (n d : Z) : 0 <= n -> 0 < d ->
  shr_1 (rec_of n d) = rec_of n (d * 2).
Proof.
  intros Hn Hd. rewrite !rec_of_bits by lia.
  pose proof (Z.mod_pos_bound n d Hd) as B.
  pose proof (Z.div_pos n d Hn Hd) as Q.
  rewrite shr_1_spec by exact Q.
  assert (E2 : n / (d * 2) = n / d / 2) by (rewrite Z.div_div; lia).
  assert (E3 : n mod (d * 2) = d * ((n / d) mod 2) + n mod d).
  { rewrite Z.rem_mul_r by lia. lia. }
  rewrite E2, E3, (Zmod_odd (n / d)).
  set (q := n / d) in *. set (r := n mod d) in *.
  f_equal.
  - destruct (Z.odd q); destruct (Z.leb_spec (d * 2) (2 * (d * 1 + r)));
      destruct (Z.leb_spec (d * 2) (2 * (d * 0 + r))); try reflexivity; lia.
  - destruct (Z.odd q), (Z.eqb_spec r 0), (Z.eqb_spec (2 * r) d),
      (Z.leb_spec d (2 * r)); cbn [negb andb orb]; try lia;
      repeat match goal with
      | |- context [?a =? ?b] => destruct (Z.eqb_spec a b); try lia
      end; reflexivity.
Qed.

Lemma shr_rec_of (n d e k : Z) : 0 <= n -> 0 < d -> 0 <= k ->
  shr (rec_of n d) e k = (rec_of n (d * 2 ^ k), e + k).
Proof.
  intros Hn Hd Hk. unfold shr. destruct k as [|p|p]; try lia.
  - now rewrite Z.mul_1_r, Z.add_0_r.
  - f_equal. rewrite iter_pos_iter. clear Hk.
    induction p as [|p IH] using Pos.peano_ind.
    + simpl Pos.iter. now rewrite shr_1_rec_of by lia.
    + rewrite Pos.iter_succ, IH, shr_1_rec_of.
      * now rewrite Pos2Z.inj_succ, Z.pow_succ_r, <- Z.mul_assoc,
          (Z.mul_comm (2 ^ _)) by lia.
      * lia.
      * apply Z.mul_pos_pos; [lia|]. apply Z.pow_pos_nonneg; lia.
Qed.

Lemma shr_nonpos (mrs : shr_record) (e n : Z) : n <= 0 -> shr mrs e n = (mrs, e).
Proof. destruct n; try reflexivity. lia. Qed.

(** ** Rounding half to even *)

Lemma round_nearest_even_rec_of (n d : Z) : 0 <= n -> 0 < d ->
  round_nearest_even (shr_m (rec_of n d)) (loc_of_shr_record (rec_of n d)) =
  round_half_even n d.
Proof.
  intros Hn Hd. unfold rec_of, round_half_even, loc_of.
  pose proof (Z.mod_pos_bound n d Hd) as B.
  destruct (Z.eqb_spec (n mod d) 0) as [H0|H0].
  - rewrite H0. cbn. destruct d; try lia; reflexivity.
  - destruct (Z.compare_spec (2 * (n mod d)) d); reflexivity.
Qed.

Lemma round_half_even_cancel (n d c : Z) : 0 < d -> 0 < c ->
  round_half_even (n * c) (d * c) = round_half_even n d.
Proof.
  intros Hd Hc. unfold round_half_even.
  rewrite Z.div_mul_cancel_r, Z.mul_mod_distr_r by lia.
  replace (2 * (n mod d * c)) with (2 * (n mod d) * c) by ring.
  now rewrite <- Zmult_compare_compat_r by lia.
Qed.

Lemma round_half_even_bounds (n d : Z) : 0 <= n -> 0 < d ->
  n / d <= round_half_even n d <= n / d + 1.
Proof.
  intros Hn Hd. unfold round_half_even.
  destruct (2 * (n mod d) ?= d); [destruct (Z.even (n / d))| |]; lia.
Qed.

Lemma round_half_even_half (n d : Z) : 0 < d ->
  2 * Z.abs (round_half_even n d * d - n) <= d.
Proof.
  intros Hd. unfold round_half_even.
  pose proof (Z.div_mod n d ltac:(lia)) as E.
  pose proof (Z.mod_pos_bound n d Hd) as B.
  destruct (Z.compare_spec (2 * (n mod d)) d); [destruct (Z.even (n / d))| |]; nia.
Qed.

(** No integer is nearer to [n / d]. *)
Lemma round_half_even_nearest (n d c : Z) : 0 < d ->
  Z.abs (round_half_even n d * d - n) <= Z.abs (c * d - n).
Proof.
  intros Hd. pose proof (round_half_even_half n d Hd) as H.
  destruct (Z.eq_dec c (round_half_even n d)) as [->|Hne]; [lia|].
  assert (d <= Z.abs ((c - round_half_even n d) * d)) by nia.
  lia.
Qed.

Lemma round_half_even_exact (q d : Z) : 0 < d -> round_half_even (q * d) d = q.
Proof.
  intros Hd. unfold round_half_even.
  rewrite Z.div_mul, Z.mod_mul by lia. simpl.
  destruct d; try lia; reflexivity.
Qed.

(** ** The unit in the last place *)

Section Ulp.
Variables a b : Z.
Hypothesis Ha : 0 < a.
Hypothesis Hb : 0 < b.

Lemma ulp_shift_nonneg : 0 <= ulp_shift a b.
Proof. unfold ulp_shift. lia. Qed.

Lemma scaled_nonneg : 0 <= a * 2 ^ 1074.
Proof. apply Z.mul_nonneg_nonneg; [lia|]. apply Z.pow_nonneg; lia. Qed.

Lemma quotient_units_nonneg : 0 <= a * 2 ^ 1074 / b.
Proof. apply Z.div_pos; [apply scaled_nonneg|lia]. Qed.

(** Counted in units in the last place, the quotient has at most 53 bits,
    and exactly 53 above the subnormal range. *)
Lemma ulp_shift_bounds :
  a * 2 ^ 1074 / b / 2 ^ ulp_shift a b < 2 ^ 53 /\
  (0 < ulp_shift a b -> 2 ^ 52 <= a * 2 ^ 1074 / b / 2 ^ ulp_shift a b).
Proof.
  pose proof quotient_units_nonneg as HT. pose proof ulp_shift_nonneg as Hk.
  assert (Hk' : ulp_shift a b = Z.max (Z.log2 (a * 2 ^ 1074 / b) - 52) 0)
    by reflexivity.
  set (T := a * 2 ^ 1074 / b) in *. set (k := ulp_shift a b) in *.
  assert (Hp : 0 < 2 ^ k) by (apply Z.pow_pos_nonneg; lia).
  destruct (Z.eq_dec T 0) as [T0|T0].
  - rewrite T0 in *. simpl in Hk'. rewrite Hk'. simpl. split; [reflexivity|lia].
  - assert (HT' : 0 < T) by lia.
    pose proof (Z.log2_spec T HT') as [L1 L2].
    pose proof (Z.log2_nonneg T) as L0.
    split.
    + apply Z.div_lt_upper_bound; [lia|].
      rewrite <- Z.pow_add_r by lia.
      eapply Z.lt_le_trans; [exact L2|].
      apply Z.pow_le_mono_r; lia.
    + intros Hk0. apply Z.div_le_lower_bound; [lia|].
      rewrite <- Z.pow_add_r by lia.
      etransitivity; [|exact L1]. apply Z.pow_le_mono_r; lia.
Qed.

(** The rounded quotient, in units in the last place. *)
Lemma round_bounds :
  0 <= round_half_even (a * 2 ^ 1074) (b * 2 ^ ulp_shift a b) <= 2 ^ 53 /\
  (0 < ulp_shift a b ->
   2 ^ 52 <= round_half_even (a * 2 ^ 1074) (b * 2 ^ ulp_shift a b)).
Proof.
  pose proof ulp_shift_nonneg as Hk.
  pose proof ulp_shift_bounds as [HF1 HF2].
  assert (Hp : 0 < 2 ^ ulp_shift a b) by (apply Z.pow_pos_nonneg; lia).
  pose proof (round_half_even_bounds (a * 2 ^ 1074) (b * 2 ^ ulp_shift a b)
                scaled_nonneg ltac:(apply Z.mul_pos_pos; lia)) as HR.
  rewrite <- Z.div_div in HR by lia.
  assert (0 <= a * 2 ^ 1074 / b / 2 ^ ulp_shift a b)
    by (apply Z.div_pos; [apply quotient_units_nonneg|lia]).
  split; [lia|]. intros Hk0. specialize (HF2 Hk0). lia.
Qed.

End Ulp.

Lemma ulp_shift_int (a : Z) : 0 < a -> ulp_shift a 1 = Z.log2 a + 1022.
Proof.
  intros Ha. unfold ulp_shift.
  rewrite Z.div_1_r, Z.log2_mul_pow2 by lia.
  pose proof (Z.log2_nonneg a). lia.
Qed.

Lemma div_shift_le (a b : Z) : 0 < a -> 0 < b -> div_shift a b <= ulp_shift a b.
Proof.
  intros Ha Hb. unfold div_shift, ulp_shift.
  pose proof (Z.log2_spec a Ha) as [A1 A2].
  pose proof (Z.log2_spec b Hb) as [B1 B2].
  pose proof (Z.log2_nonneg a). pose proof (Z.log2_nonneg b).
  destruct (Z.le_gt_cases (Z.log2 a - Z.log2 b + 1021) 0) as [Hs|Hs]; [lia|].
  enough (Z.log2 a - Z.log2 b + 1073 <= Z.log2 (a * 2 ^ 1074 / b)) by lia.
  assert (Hlow : 2 ^ (Z.log2 a - Z.log2 b + 1073) <= a * 2 ^ 1074 / b).
  { apply Z.div_le_lower_bound; [lia|].
    apply Z.le_trans with (2 ^ Z.succ (Z.log2 b) * 2 ^ (Z.log2 a - Z.log2 b + 1073)).
    - apply Z.mul_le_mono_nonneg_r; [apply Z.pow_nonneg|]; lia.
    - rewrite <- Z.pow_add_r by lia.
      replace (Z.succ (Z.log2 b) + (Z.log2 a - Z.log2 b + 1073))
        with (Z.log2 a + 1074) by lia.
      rewrite Z.pow_add_r by lia.
      apply Z.mul_le_mono_nonneg_r; [apply Z.pow_nonneg|]; lia. }
  apply Z.log2_le_pow2; [|exact Hlow].
  eapply Z.lt_le_trans; [|exact Hlow]. apply Z.pow_pos_nonneg; lia.
Qed.

Lemma pow2_2098_low (r k : Z) :
  0 <= k <= 2045 -> r < 2 ^ 53 -> r * 2 ^ k < 2 ^ 2098.
Proof.
  intros Hk Hr.
  assert (0 < 2 ^ k) by (apply Z.pow_pos_nonneg; lia).
  apply Z.lt_le_trans with (2 ^ 53 * 2 ^ k); [nia|].
  rewrite <- Z.pow_add_r by lia. apply Z.pow_le_mono_r; lia.
Qed.

Lemma pow2_2098_high (r k : Z) :
  2046 <= k -> 2 ^ 52 <= r -> 2 ^ 2098 <= r * 2 ^ k.
Proof.
  intros Hk Hr.
  assert (0 < 2 ^ k) by (apply Z.pow_pos_nonneg; lia).
  apply Z.le_trans with (2 ^ 52 * 2 ^ k); [|nia].
  rewrite <- Z.pow_add_r by lia. apply Z.pow_le_mono_r; lia.
Qed.

Lemma pow2_2098_carry (k : Z) : 0 <= k ->
  (2 ^ 2098 <=? 2 ^ 53 * 2 ^ k) = negb (k - 1074 + 1 <=? 971).
Proof.
  intros Hk. rewrite <- Z.pow_add_r by lia.
  destruct (Z.leb_spec (k - 1074 + 1) 971); cbn [negb].
  - apply Z.leb_gt. apply Z.pow_lt_mono_r; lia.
  - apply Z.leb_le. apply Z.pow_le_mono_r; lia.
Qed.

(** ** Rounding a quotient

    The algorithm is handed the quotient of [a * 2^(1074 - j)] by [b], that
    is [a / b] in units of [2^(j - 1074)], with the place of the remainder;
    [j] is at most the shift of the unit in the last place. *)

Section Round.
Variables (s : bool) (a b j : Z).
Hypothesis Ha : 0 < a.
Hypothesis Hb : 0 < b.
Hypothesis Hj : 0 <= j <= 1074.
Hypothesis Hjk : j <= ulp_shift a b.

Lemma numerator_pos : 0 < a * 2 ^ (1074 - j).
Proof. apply Z.mul_pos_pos; [exact Ha|]. apply Z.pow_pos_nonneg; lia. Qed.

Lemma numerator_shift : a * 2 ^ (1074 - j) * 2 ^ j = a * 2 ^ 1074.
Proof.
  rewrite <- Z.mul_assoc, <- Z.pow_add_r by lia.
  do 2 f_equal. lia.
Qed.

Lemma first_quotient : a * 2 ^ (1074 - j) / b = a * 2 ^ 1074 / b / 2 ^ j.
Proof.
  assert (Hp : 0 < 2 ^ j) by (apply Z.pow_pos_nonneg; lia).
  rewrite <- numerator_shift, Z.div_div by lia.
  now rewrite Z.div_mul_cancel_r by lia.
Qed.

(** The first shift brings the quotient to the unit in the last place. *)
Lemma first_shift :
  shr_fexp 53 1024 (a * 2 ^ (1074 - j) / b) (j - 1074)
    (loc_of (a * 2 ^ (1074 - j)) b) =
  (rec_of (a * 2 ^ (1074 - j)) (b * 2 ^ (ulp_shift a b - j)),
   ulp_shift a b - 1074).
Proof.
  pose proof numerator_pos as Hn.
  pose proof (quotient_units_nonneg a b Ha Hb) as HT.
  pose proof first_quotient as HqT.
  assert (Hk : ulp_shift a b = Z.max (Z.log2 (a * 2 ^ 1074 / b) - 52) 0)
    by reflexivity.
  set (n := a * 2 ^ (1074 - j)) in *.
  set (T := a * 2 ^ 1074 / b) in *.
  set (k := ulp_shift a b) in *.
  assert (Hp : 0 < 2 ^ j) by (apply Z.pow_pos_nonneg; lia).
  unfold shr_fexp. fold (rec_of n b). rewrite fexp_eq.
  assert (Hq : 0 <= n / b) by (apply Z.div_pos; lia).
  destruct (Z.eq_dec (n / b) 0) as [Q0|Q0].
  - (* the quotient is below the smallest subnormal *)
    assert (j = 0 /\ k = 0) as [J0 K0].
    { destruct (Z.eq_dec T 0) as [T0|T0].
      - rewrite T0 in Hk. simpl in Hk. lia.
      - assert (HT' : 0 < T) by lia.
        assert (T < 2 ^ j).
        { rewrite HqT in Q0. apply Z.div_small_iff in Q0; lia. }
        apply Z.log2_lt_pow2 in H; [|exact HT']. lia. }
    rewrite Q0, K0, J0. simpl Zdigits2. rewrite shr_nonpos by lia.
    now rewrite Z.mul_1_r.
  - assert (Hq' : 0 < n / b) by lia.
    rewrite (Zdigits2_log2 _ Hq').
    assert (HT' : 0 < T).
    { destruct (Z.eq_dec T 0) as [T0|T0]; [|lia].
      rewrite HqT, T0 in Q0. now rewrite Z.div_0_l in Q0 by lia. }
    assert (HL : Z.log2 (n / b) = Z.log2 T - j).
    { rewrite HqT, <- Z.shiftr_div_pow2, Z.log2_shiftr by lia.
      assert (2 ^ j <= T).
      { rewrite HqT in Hq'.
        destruct (Z.lt_ge_cases T (2 ^ j)) as [Hlt|Hge]; [|exact Hge].
        rewrite Z.div_small in Hq' by lia. lia. }
      apply Z.log2_le_pow2 in H; lia. }
    rewrite HL.
    replace (Z.max (Z.log2 T - j + 1 + (j - 1074) - 53) (-1074) - (j - 1074))
      with (k - j) by lia.
    rewrite shr_rec_of by lia.
    f_equal. lia.
Qed.

Lemma rounded :
  round_half_even (a * 2 ^ (1074 - j)) (b * 2 ^ (ulp_shift a b - j)) =
  round_half_even (a * 2 ^ 1074) (b * 2 ^ ulp_shift a b).
Proof.
  assert (Hp : 0 < 2 ^ j) by (apply Z.pow_pos_nonneg; lia).
  assert (Hp' : 0 < 2 ^ (ulp_shift a b - j)) by (apply Z.pow_pos_nonneg; lia).
  rewrite <- (round_half_even_cancel (a * 2 ^ (1074 - j)) _ (2 ^ j)) by lia.
  rewrite numerator_shift, <- Z.mul_assoc, <- Z.pow_add_r by lia.
  do 3 f_equal. lia.
Qed.

(** The rounding of the algorithm is rounding to the nearest double. *)
Theorem binary_round_aux_nearest :
  binary_round_aux 53 1024 s (a * 2 ^ (1074 - j) / b) (j - 1074)
    (loc_of (a * 2 ^ (1074 - j)) b) = nearest_double s a b.
Proof.
  pose proof numerator_pos as Hn.
  pose proof (ulp_shift_nonneg a b) as Hk.
  pose proof (round_bounds a b Ha Hb) as [HR HR52].
  assert (Hp : 0 < 2 ^ ulp_shift a b) by (apply Z.pow_pos_nonneg; lia).
  assert (Hp' : 0 < 2 ^ (ulp_shift a b - j)) by (apply Z.pow_pos_nonneg; lia).
  unfold binary_round_aux.
  rewrite first_shift.
  rewrite round_nearest_even_rec_of by nia.
  rewrite rounded.
  unfold nearest_double.
  set (k := ulp_shift a b) in *.
  set (R := round_half_even (a * 2 ^ 1074) (b * 2 ^ k)) in *.
  unfold shr_fexp. rewrite fexp_eq.
  destruct (Z.eqb_spec R 0) as [R0|R0].
  - rewrite R0. simpl Zdigits2. rewrite shr_nonpos by lia. reflexivity.
  - destruct (Z.eqb_spec R (2 ^ 53)) as [RC|RC].
    + (* the mantissa overflowed to 2^53: one more shift *)
      rewrite RC.
      change (Zdigits2 (2 ^ 53)) with 54.
      replace (Z.max (54 + (k - 1074) - 53) (-1074) - (k - 1074)) with 1 by lia.
      rewrite pow2_2098_carry by lia.
      cbn [shr SpecFloat.iter_pos shr_record_of_loc shr_1 shr_m].
      change (2 ^ 53) with (Z.pos (4503599627370496~0)). cbn [shr_1 shr_m].
      replace (k - 1074 + 1) with (k - 1073) by lia.
      change (1024 - 53) with 971.
      destruct (k - 1073 <=? 971); reflexivity.
    + assert (HR' : 0 < R < 2 ^ 53) by lia.
      rewrite (Zdigits2_log2 R) by lia.
      assert (Z.log2 R < 53) by (apply Z.log2_lt_pow2; lia).
      rewrite shr_nonpos by lia.
      cbn [shr_record_of_loc shr_m].
      destruct R as [|m|m] eqn:ER; try lia.
      change (1024 - 53) with 971.
      destruct (Z.leb_spec (k - 1074) 971) as [Hle|Hgt].
      * assert (Hlt : Z.pos m * 2 ^ k < 2 ^ 2098) by (apply pow2_2098_low; lia).
        apply Z.leb_gt in Hlt. rewrite Hlt. reflexivity.
      * assert (Hge : 2 ^ 2098 <= Z.pos m * 2 ^ k)
          by (apply pow2_2098_high; [lia|apply HR52; lia]).
        apply Z.leb_le in Hge. rewrite Hge. reflexivity.
Qed.

End Round.

(** ** Division of integers, conversion of integers *)

Lemma new_location_loc_of (n d : Z) : 0 < d ->
  new_location d (n mod d) = loc_of n d.
Proof.
  intros Hd. unfold new_location, new_location_even, new_location_odd, loc_of.
  pose proof (Z.mod_pos_bound n d Hd) as B.
  set (r := n mod d) in *.
  destruct (Z.even d) eqn:Ev; [reflexivity|].
  destruct (Z.eqb_spec r 0); [reflexivity|]. f_equal.
  assert (Od : Z.odd d = true) by (rewrite <- Z.negb_even, Ev; reflexivity).
  apply Z.odd_spec in Od as [c Hc].
  destruct (Z.compare_spec (2 * r + 1) d), (Z.compare_spec (2 * r) d);
    try reflexivity; lia.
Qed.

Lemma SFdiv_core_binary_spec (pa pb : positive) :
  SFdiv_core_binary 53 1024 (Z.pos pa) 0 (Z.pos pb) 0 =
  (Z.pos pa * 2 ^ (1074 - div_shift (Z.pos pa) (Z.pos pb)) / Z.pos pb,
   div_shift (Z.pos pa) (Z.pos pb) - 1074,
   loc_of (Z.pos pa * 2 ^ (1074 - div_shift (Z.pos pa) (Z.pos pb))) (Z.pos pb)).
Proof.
  set (a := Z.pos pa). set (b := Z.pos pb). set (j := div_shift a b).
  unfold SFdiv_core_binary.
  rewrite !Z.add_0_r, Z.sub_0_r, fexp_eq.
  rewrite !Zdigits2_log2 by reflexivity.
  replace (Z.log2 a + 1 - (Z.log2 b + 1) - 53)
    with (Z.log2 a - Z.log2 b - 53) by lia.
  set (e' := Z.min (Z.max (Z.log2 a - Z.log2 b - 53) (-1074)) 0).
  assert (He : e' = j - 1074) by (unfold j, div_shift; fold e'; lia).
  assert (Hm : match 0 - e' with
               | Z.pos _ => Z.shiftl a (0 - e')
               | 0 => a
               | Z.neg _ => 0
               end = a * 2 ^ (1074 - j)).
  { replace (1074 - j) with (0 - e') by lia.
    destruct (0 - e') eqn:E; try lia.
    rewrite Z.shiftl_mul_pow2; lia. }
  rewrite Hm.
  set (n := a * 2 ^ (1074 - j)).
  pose proof (new_location_loc_of n b ltac:(reflexivity)) as HL.
  unfold Z.modulo in HL. unfold Z.div.
  destruct (Z.div_eucl n b) as [q r]. cbn [fst snd] in *.
  now rewrite HL, He.
Qed.

(** [int / int]: the quotient computed by the division algorithm is the
    double nearest to the exact quotient. *)
Theorem div_Z_nearest (a b : Z) : b <> 0 -> Float64.div_Z a b = quotient_Z a b.
Proof.
  intros Hb.
  unfold Float64.div_Z, Float64.div, Float64.raw_of_Z, quotient_Z,
    Float64.prec, Float64.emax.
  destruct b as [|pb|pb]; [contradiction| |]; destruct a as [|pa|pa];
    try reflexivity; cbn [SFdiv Z.eqb Z.ltb Z.compare Z.abs xorb];
    rewrite (SFdiv_core_binary_spec pa pb);
    apply binary_round_aux_nearest; try reflexivity;
    try (apply div_shift_le; reflexivity);
    unfold div_shift; lia.
Qed.

Lemma binary_round_nearest (s : bool) (p : positive) :
  binary_round 53 1024 s p 0 = nearest_double s (Z.pos p) 1.
Proof.
  unfold binary_round. rewrite Z.add_0_r, fexp_eq.
  change (Z.pos (digits2_pos p)) with (Zdigits2 (Z.pos p)).
  rewrite Zdigits2_log2 by reflexivity.
  set (a := Z.pos p). pose proof (Z.log2_nonneg a) as HL.
  replace (Z.max (Z.log2 a + 1 - 53) (-1074)) with (Z.log2 a - 52) by lia.
  set (j := Z.min (Z.log2 a + 1022) 1074).
  assert (Hjk : j <= ulp_shift a 1) by (rewrite ulp_shift_int by reflexivity; lia).
  pose proof (binary_round_aux_nearest s a 1 j ltac:(reflexivity)
                ltac:(reflexivity) ltac:(lia) Hjk) as HN.
  rewrite Z.div_1_r in HN.
  assert (HE : loc_of (a * 2 ^ (1074 - j)) 1 = loc_Exact)
    by (unfold loc_of; now rewrite Z.mod_1_r).
  rewrite HE in HN. rewrite <- HN. clear HN HE Hjk.
  unfold shl_align. rewrite Z.sub_0_r.
  destruct (Z.log2 a - 52) as [|d|d] eqn:E.
  - replace j with 1074 by lia. rewrite Z.sub_diag, Z.mul_1_r. reflexivity.
  - replace j with 1074 by lia. rewrite Z.sub_diag, Z.mul_1_r. reflexivity.
  - replace (1074 - j) with (Z.pos d) by lia.
    replace (j - 1074) with (Z.neg d) by lia.
    unfold a. now rewrite <- iter_xO_pow2.
Qed.

(** The conversion of an integer gives the double nearest to it. *)
Theorem of_Z_nearest (z : Z) : Float64.of_Z z = quotient_Z z 1.
Proof.
  unfold Float64.of_Z, Float64.prec, Float64.emax.
  destruct z as [|p|p]; [reflexivity| |]; apply binary_round_nearest.
Qed.

(** ** The nearest double *)

Lemma valid_binary_finite (s : bool) (m : positive) (e : Z) :
  Float64.valid (S754_finite s m e) = true ->
  -1074 <= e <= 971 /\ Z.log2 (Z.pos m) <= 52 /\
  e + 1074 = Z.max (Z.log2 (Z.pos m) + e + 1022) 0.
Proof.
  unfold Float64.valid, Float64.prec, Float64.emax. cbn [valid_binary].
  unfold bounded, canonical_mantissa. rewrite fexp_eq.
  change (Z.pos (digits2_pos m)) with (Zdigits2 (Z.pos m)).
  rewrite Zdigits2_log2 by reflexivity.
  intros H. apply andb_prop in H as [H1 H2].
  apply Z.eqb_eq in H1. apply Z.leb_le in H2.
  change (1024 - 53) with 971 in H2.
  pose proof (Z.log2_nonneg (Z.pos m)). lia.
Qed.

(** The result is a double in canonical form. *)
Theorem nearest_double_valid (s : bool) (a b : Z) : 0 < a -> 0 < b ->
  Float64.is_infinite (nearest_double s a b) = false ->
  Float64.valid (nearest_double s a b) = true.
Proof.
  intros Ha Hb. pose proof (round_bounds a b Ha Hb) as [HR1 HR2].
  pose proof (ulp_shift_nonneg a b) as Hk.
  unfold nearest_double, Float64.valid, Float64.prec, Float64.emax.
  set (k := ulp_shift a b) in *.
  set (R := round_half_even (a * 2 ^ 1074) (b * 2 ^ k)) in *.
  destruct (Z.eqb_spec R 0); [reflexivity|].
  destruct (Z.leb_spec (2 ^ 2098) (R * 2 ^ k)) as [|Hlt]; [discriminate|].
  assert (Hk' : k <= 2045).
  { destruct (Z.le_gt_cases k 2045); [assumption|].
    pose proof (pow2_2098_high R k ltac:(lia) ltac:(apply HR2; lia)). lia. }
  destruct (Z.eqb_spec R (2 ^ 53)) as [E|NE]; intros _; cbn [valid_binary];
    unfold bounded, canonical_mantissa; rewrite fexp_eq;
    apply andb_true_intro; split.
  - change (Z.pos (digits2_pos (Z.to_pos (2 ^ 52)))) with 53. apply Z.eqb_eq. lia.
  - apply Z.leb_le. change (1024 - 53) with 971.
    destruct (Z.eq_dec k 2045) as [K|K]; [|lia].
    rewrite E, K, <- Z.pow_add_r in Hlt by lia. simpl in Hlt. lia.
  - destruct R as [|r|r]; try lia. cbn [Z.to_pos].
    change (Z.pos (digits2_pos r)) with (Zdigits2 (Z.pos r)).
    rewrite Zdigits2_log2 by reflexivity.
    assert (Z.log2 (Z.pos r) < 53) by (apply Z.log2_lt_pow2; lia).
    apply Z.eqb_eq.
    destruct (Z.eq_dec k 0) as [K|K]; [lia|].
    assert (52 <= Z.log2 (Z.pos r)) by (apply Z.log2_le_pow2; [lia|apply HR2; lia]).
    lia.
  - apply Z.leb_le. change (1024 - 53) with 971. lia.
Qed.

(** A quotient that is a double is returned as it is. *)
Lemma nearest_double_exact (s : bool) (m : positive) (e a b : Z) :
  0 < a -> 0 < b ->
  Float64.valid (S754_finite s m e) = true ->
  Z.pos m * 2 ^ (e + 1074) * b = a * 2 ^ 1074 ->
  nearest_double s a b = S754_finite s m e.
Proof.
  intros Ha Hb Hv Hq.
  apply valid_binary_finite in Hv as (He & Hm & Hk).
  assert (Hp : 0 < 2 ^ (e + 1074)) by (apply Z.pow_pos_nonneg; lia).
  assert (HT : a * 2 ^ 1074 / b = Z.pos m * 2 ^ (e + 1074))
    by (rewrite <- Hq; apply Z.div_mul; lia).
  assert (Hs : ulp_shift a b = e + 1074).
  { unfold ulp_shift. rewrite HT, Z.log2_mul_pow2 by lia. lia. }
  unfold nearest_double. rewrite Hs.
  replace (a * 2 ^ 1074) with (Z.pos m * (b * 2 ^ (e + 1074)))
    by (rewrite <- Hq; ring).
  rewrite round_half_even_exact by nia.
  assert (Hm' : Z.pos m < 2 ^ 53) by (apply Z.log2_lt_pow2; lia).
  destruct (Z.eqb_spec (Z.pos m) 0); [lia|].
  assert (Hlt : Z.pos m * 2 ^ (e + 1074) < 2 ^ 2098) by (apply pow2_2098_low; lia).
  apply Z.leb_gt in Hlt. rewrite Hlt.
  destruct (Z.eqb_spec (Z.pos m) (2 ^ 53)); [lia|].
  cbn [Z.to_pos]. f_equal. lia.
Qed.

Theorem quotient_Z_exact (g : spec_float) (a b : Z) :
  b <> 0 -> Float64.units g <> 0 ->
  Float64.valid g = true ->
  Float64.represents g a b ->
  quotient_Z a b = g.
Proof.
  unfold Float64.represents. intros Hb Hu Hv Hq.
  destruct g as [| | |s m e]; cbn [Float64.units] in *; try contradiction.
  pose proof (valid_binary_finite s m e Hv) as (He & _).
  assert (Hp : 0 < 2 ^ (e + 1074)) by (apply Z.pow_pos_nonneg; lia).
  assert (Hp' : 0 < 2 ^ 1074) by (apply Z.pow_pos_nonneg; lia).
  unfold quotient_Z.
  destruct (Z.eqb_spec a 0) as [->|Ha0].
  { rewrite Z.mul_0_l in Hq. apply Z.mul_eq_0 in Hq. tauto. }
  set (P := 2 ^ (e + 1074)) in *. set (Q := 2 ^ 1074) in *.
  assert (Hs : xorb (a <? 0) (b <? 0) = s
               /\ Z.pos m * P * Z.abs b = Z.abs a * Q).
  { destruct s, (Z.ltb_spec a 0), (Z.ltb_spec b 0); cbn [xorb]; split;
      try reflexivity; nia. }
  destruct Hs as [<- Habs]. apply nearest_double_exact; try lia; assumption.
Qed.

Lemma units_nearest_double (s : bool) (a b : Z) : 0 < a -> 0 < b ->
  Float64.is_infinite (nearest_double s a b) = false ->
  Float64.units (nearest_double s a b) =
  (if s then -1 else 1) *
  (round_half_even (a * 2 ^ 1074) (b * 2 ^ ulp_shift a b) * 2 ^ ulp_shift a b).
Proof.
  intros Ha Hb. unfold nearest_double.
  pose proof (ulp_shift_nonneg a b) as Hk.
  pose proof (round_bounds a b Ha Hb) as [HR _].
  assert (Hp : 0 < 2 ^ ulp_shift a b) by (apply Z.pow_pos_nonneg; lia).
  set (k := ulp_shift a b) in *.
  set (R := round_half_even (a * 2 ^ 1074) (b * 2 ^ k)) in *.
  destruct (Z.eqb_spec R 0) as [->|R0]; [intros _; cbn [Float64.units]; lia|].
  destruct (2 ^ 2098 <=? R * 2 ^ k); [discriminate|].
  destruct (Z.eqb_spec R (2 ^ 53)) as [->|RC]; intros _; cbn [Float64.units].
  - replace (k - 1073 + 1074) with (k + 1) by lia.
    rewrite Z.pow_add_r by lia.
    change (Z.to_pos (2 ^ 52)) with 4503599627370496%positive.
    change (2 ^ 53) with 9007199254740992. destruct s; lia.
  - replace (k - 1074 + 1074) with k by lia.
    destruct R as [|r|r]; try lia. cbn [Z.to_pos]. destruct s; lia.
Qed.

(** No positive double is nearer to [a / b] than the rounded quotient. *)
Lemma nearest_double_closest (a b : Z) (m : positive) (e : Z) :
  0 < a -> 0 < b ->
  Float64.valid (S754_finite false m e) = true ->
  Z.abs (round_half_even (a * 2 ^ 1074) (b * 2 ^ ulp_shift a b)
         * 2 ^ ulp_shift a b * b - a * 2 ^ 1074) <=
  Z.abs (Z.pos m * 2 ^ (e + 1074) * b - a * 2 ^ 1074).
Proof.
  intros Ha Hb Hv.
  apply valid_binary_finite in Hv as (He & Hm & Hk).
  pose proof (ulp_shift_nonneg a b) as Hk0.
  pose proof (ulp_shift_bounds a b Ha Hb) as [_ HF].
  set (k := ulp_shift a b) in *.
  set (R := round_half_even (a * 2 ^ 1074) (b * 2 ^ k)).
  assert (Hp : 0 < 2 ^ k) by (apply Z.pow_pos_nonneg; lia).
  assert (Hd : 0 < b * 2 ^ k) by nia.
  replace (R * 2 ^ k * b) with (R * (b * 2 ^ k)) by ring.
  destruct (Z.le_gt_cases k (e + 1074)) as [Hle|Hgt].
  - (* the double is a multiple of the unit in the last place *)
    pose proof (round_half_even_nearest (a * 2 ^ 1074) (b * 2 ^ k)
                  (Z.pos m * 2 ^ (e + 1074 - k)) Hd) as HN.
    fold R in HN.
    replace (Z.pos m * 2 ^ (e + 1074 - k) * (b * 2 ^ k))
      with (Z.pos m * 2 ^ (e + 1074) * b) in HN; [exact HN|].
    replace (e + 1074) with (e + 1074 - k + k) at 1 by lia.
    rewrite Z.pow_add_r by lia. ring.
  - (* the double is below the binade of the quotient *)
    specialize (HF ltac:(lia)).
    pose proof (round_half_even_nearest (a * 2 ^ 1074) (b * 2 ^ k) (2 ^ 52) Hd) as HN.
    fold R in HN.
    etransitivity; [exact HN|].
    assert (Hm' : Z.pos m < 2 ^ 53) by (apply Z.log2_lt_pow2; lia).
    assert (HT : 2 ^ 52 * 2 ^ k <= a * 2 ^ 1074 / b).
    { pose proof (Z.mul_div_le (a * 2 ^ 1074 / b) (2 ^ k) Hp). nia. }
    assert (Hn : 2 ^ 52 * 2 ^ k * b <= a * 2 ^ 1074).
    { pose proof (Z.mul_div_le (a * 2 ^ 1074) b Hb). nia. }
    assert (Hg : Z.pos m * 2 ^ (e + 1074) <= 2 ^ 52 * 2 ^ k).
    { replace k with (e + 1074 + (k - (e + 1074))) by lia.
      rewrite (Z.pow_add_r 2 (e + 1074) (k - (e + 1074))) by lia.
      assert (0 < 2 ^ (e + 1074)) by (apply Z.pow_pos_nonneg; lia).
      assert (2 <= 2 ^ (k - (e + 1074))).
      { change 2 with (2 ^ 1) at 1. apply Z.pow_le_mono_r; lia. }
      change (2 ^ 53) with 9007199254740992 in Hm'.
      change (2 ^ 52) with 4503599627370496. nia. }
    nia.
Qed.

Lemma signed_distance (sg : bool) (a b G Y : Z) : a <> 0 -> b <> 0 ->
  Z.abs ((if sg then - G else G) * b - a * Y) =
  if eqb sg (xorb (a <? 0) (b <? 0))
  then Z.abs (G * Z.abs b - Z.abs a * Y)
  else Z.abs (G * Z.abs b + Z.abs a * Y).
Proof.
  intros Ha Hb.
  destruct sg, (Z.ltb_spec a 0), (Z.ltb_spec b 0); cbn [xorb eqb];
    rewrite ?(Z.abs_eq a), ?(Z.abs_eq b), ?(Z.abs_neq a), ?(Z.abs_neq b) by lia;
    first [ f_equal; ring | rewrite <- Z.abs_opp; f_equal; ring ].
Qed.

(** No double is nearer to [a / b] than [quotient_Z a b]. *)
Theorem quotient_Z_closest (a b : Z) (g : spec_float) :
  b <> 0 ->
  Float64.is_infinite (quotient_Z a b) = false ->
  Float64.is_finite g = true -> Float64.valid g = true ->
  Float64.distance (quotient_Z a b) a b <= Float64.distance g a b.
Proof.
  unfold Float64.distance. intros Hb Hinf Hfin Hv. unfold quotient_Z in *.
  destruct (Z.eqb_spec a 0) as [->|Ha]; [cbn [Float64.units]; lia|].
  assert (Ha' : 0 < Z.abs a) by lia. assert (Hb' : 0 < Z.abs b) by lia.
  rewrite (units_nearest_double _ _ _ Ha' Hb' Hinf).
  pose proof (fun m e => nearest_double_closest (Z.abs a) (Z.abs b) m e Ha' Hb') as HG.
  set (k := ulp_shift (Z.abs a) (Z.abs b)) in *.
  set (R := round_half_even (Z.abs a * 2 ^ 1074) (Z.abs b * 2 ^ k)) in *.
  assert (Hp : 0 < 2 ^ k).
  { apply Z.pow_pos_nonneg; [lia|]. apply ulp_shift_nonneg. }
  assert (Hd : 0 < Z.abs b * 2 ^ k) by (apply Z.mul_pos_pos; lia).
  assert (HQ : 0 < 2 ^ 1074) by (apply Z.pow_pos_nonneg; lia).
  (* the rounded quotient is at least as near as zero *)
  pose proof (round_half_even_nearest (Z.abs a * 2 ^ 1074) (Z.abs b * 2 ^ k) 0 Hd) as H0.
  fold R in H0. rewrite Z.mul_0_l in H0.
  replace (R * (Z.abs b * 2 ^ k)) with (R * 2 ^ k * Z.abs b) in H0 by ring.
  set (X := R * 2 ^ k) in *.
  set (Y := 2 ^ 1074) in *.
  assert (HAY : 0 < Z.abs a * Y) by (apply Z.mul_pos_pos; lia).
  assert (HL : Z.abs ((if xorb (a <? 0) (b <? 0) then -1 else 1) * X * b - a * Y)
               = Z.abs (X * Z.abs b - Z.abs a * Y)).
  { pose proof (signed_distance (xorb (a <? 0) (b <? 0)) a b X Y Ha Hb) as HS.
    rewrite eqb_reflx in HS. rewrite <- HS. f_equal.
    destruct (xorb (a <? 0) (b <? 0)); ring. }
  rewrite HL.
  destruct g as [sg| | |sg m e]; try discriminate; cbn [Float64.units].
  - rewrite Z.mul_0_l, Z.sub_0_l, Z.abs_opp, Z.abs_mul, (Z.abs_eq Y) by lia.
    set (XB := X * Z.abs b) in *. set (AY := Z.abs a * Y) in *. lia.
  - specialize (HG m e Hv).
    assert (0 < 2 ^ (e + 1074)).
    { apply valid_binary_finite in Hv. apply Z.pow_pos_nonneg; lia. }
    set (G := Z.pos m * 2 ^ (e + 1074)) in *.
    assert (HGB : 0 < G * Z.abs b)
      by (apply Z.mul_pos_pos; [apply Z.mul_pos_pos|]; lia).
    replace ((if sg then Z.neg m else Z.pos m) * 2 ^ (e + 1074))
      with (if sg then - G else G) by (unfold G; destruct sg; lia).
    rewrite (signed_distance sg a b G Y Ha Hb).
    destruct (eqb sg _); [exact HG|].
    set (XB := X * Z.abs b) in *. set (AY := Z.abs a * Y) in *.
    set (GB := G * Z.abs b) in *. lia.
Qed.

Theorem quotient_Z_valid (a b : Z) : b <> 0 ->
  Float64.is_infinite (quotient_Z a b) = false ->
  Float64.valid (quotient_Z a b) = true.
Proof.
  intros Hb. unfold quotient_Z.
  destruct (Z.eqb_spec a 0); [reflexivity|].
  apply nearest_double_valid; lia.
Qed.

(** The double of a non-zero integer is not zero. *)
Lemma of_Z_nonzero (z : Z) : z <> 0 -> Float64.is_zero (Float64.of_Z z) = false.
Proof.
  intros Hz. rewrite of_Z_nearest. unfold quotient_Z.
  destruct (Z.eqb_spec z 0); [contradiction|].
  assert (Ha : 0 < Z.abs z) by lia. change (Z.abs 1) with 1.
  pose proof (round_bounds (Z.abs z) 1 Ha ltac:(lia)) as [_ HB].
  rewrite ulp_shift_int in HB by exact Ha.
  unfold nearest_double. rewrite ulp_shift_int by exact Ha.
  pose proof (Z.log2_nonneg (Z.abs z)).
  specialize (HB ltac:(lia)).
  set (R := round_half_even _ _) in *.
  destruct (Z.eqb_spec R 0); [lia|].
  destruct (_ <=? _); [reflexivity|]. destruct (_ =? _); reflexivity.
Qed.

(** ** Conversions *)

Lemma PyLong_AsDouble_to_double (z : Z) :
  PyLong_AsDouble z =
  match to_double (PyInt z) with
  | Some f => Returned f
  | None => Raised OverflowError
  end.
Proof.
  unfold PyLong_AsDouble, to_double. rewrite of_Z_nearest.
  now destruct (Float64.is_infinite _).
Qed.

Lemma to_double_nonzero (z : Z) (f : spec_float) :
  z <> 0 -> to_double (PyInt z) = Some f -> Float64.is_zero f = false.
Proof.
  intros Hz. unfold to_double. rewrite <- of_Z_nearest.
  destruct (Float64.is_infinite _); [discriminate|].
  intros [= <-]. now apply of_Z_nonzero.
Qed.

(** ** The operator and the quotient *)

(** Two integers go to [int.__truediv__]. *)
Lemma truediv_long (x y : pyval) (a b : Z) :
  as_long x = Some a -> as_long y = Some b ->
  truediv x y = long_true_divide a b.
Proof.
  intros Hx Hy. unfold truediv.
  destruct x; try discriminate Hx; destruct y; try discriminate Hy;
    cbn [as_long] in Hx, Hy; injection Hx as <-; injection Hy as <-;
    cbn [nb_true_divide mbind option_bind call_slot long_slot as_long];
    reflexivity.
Qed.

(** With a float on either side, [float.__truediv__] or its reflection
    answers. *)
Lemma truediv_float (x y : pyval) :
  is_numeric x = true -> is_numeric y = true ->
  as_long x = None \/ as_long y = None ->
  truediv x y =
  match float_slot x y with
  | Some r => r
  | None => Raised TypeError
  end.
Proof.
  intros Hx Hy Hl. unfold truediv.
  destruct x; try discriminate Hx; destruct y; try discriminate Hy;
    try (destruct Hl as [Hl|Hl]; discriminate Hl);
    cbn [nb_true_divide mbind option_bind call_slot long_slot as_long];
    repeat match goal with
    | |- context [decide (?a = ?b)] =>
        destruct (decide (a = b)) as [e|n];
        [try discriminate e | try (exfalso; apply n; reflexivity)]
    end;
    cbn [mbind option_bind call_slot long_slot as_long];
    destruct (float_slot _ _); reflexivity.
Qed.

Lemma convert_to_double_numeric (x : pyval) : is_numeric x = true ->
  convert_to_double x =
  Some (match to_double x with
        | Some f => Returned f
        | None => Raised OverflowError
        end).
Proof.
  destruct x; try discriminate; intros _; cbn [convert_to_double].
  - rewrite PyLong_AsDouble_to_double. reflexivity.
  - exact (f_equal Some (PyLong_AsDouble_to_double z)).
  - reflexivity.
Qed.

Lemma to_double_is_zero (y : pyval) (f : spec_float) :
  is_zero y = false -> to_double y = Some f -> Float64.is_zero f = false.
Proof.
  destruct y as [|b|z|fy|s|l|d]; cbn [is_zero]; intros Hz Hf.
  - discriminate Hf.
  - apply (to_double_nonzero (Z.b2z b)); [clear Hf|exact Hf].
    destruct b; [intros H; discriminate H|discriminate Hz].
  - apply (to_double_nonzero z); [clear Hf|exact Hf].
    apply Z.eqb_neq. exact Hz.
  - cbn [to_double] in Hf. injection Hf as <-. exact Hz.
  - discriminate Hf.
  - discriminate Hf.
  - discriminate Hf.
Qed.

(** On numbers with a non-zero divisor, [/] gives the quotient, and
    [OverflowError] when there is none. *)
Theorem truediv_quotient (x y : pyval) :
  is_numeric x = true -> is_numeric y = true -> is_zero y = false ->
  truediv x y =
  match quotient x y with
  | Some f => Returned (PyFloat f)
  | None => Raised OverflowError
  end.
Proof.
  intros Hx Hy Hz. unfold quotient.
  destruct (as_long x) as [a|] eqn:Ex; [destruct (as_long y) as [b|] eqn:Ey|].
  - (* two integers *)
    rewrite (truediv_long x y a b Ex Ey). unfold long_true_divide.
    assert (Hb : b <> 0).
    { destruct y as [|c|z| | | |]; try discriminate Ey; cbn [as_long is_zero] in *;
        injection Ey as <-.
      - destruct c; [intros H; discriminate H|discriminate Hz].
      - apply Z.eqb_neq. exact Hz. }
    destruct (Z.eqb_spec b 0); [contradiction|].
    rewrite div_Z_nearest by exact Hb.
    destruct (Float64.is_infinite _); reflexivity.
  - rewrite truediv_float by auto. unfold float_slot.
    rewrite !convert_to_double_numeric by assumption.
    destruct (to_double x) as [fa|]; [|reflexivity].
    destruct (to_double y) as [fb|] eqn:Ey'; [|reflexivity].
    rewrite (to_double_is_zero y fb Hz Ey'). reflexivity.
  - rewrite truediv_float by auto. unfold float_slot.
    rewrite !convert_to_double_numeric by assumption.
    destruct (to_double x) as [fa|]; [|reflexivity].
    destruct (to_double y) as [fb|] eqn:Ey'; [|reflexivity].
    rewrite (to_double_is_zero y fb Hz Ey'). reflexivity.
Qed.

End RoundingFacts.

(* ===================================================================== *)
(** * Properties of [divide] *)
(* ===================================================================== *)

(** One call, whatever the operands: the events, then the outcome of [/]. *)
Lemma divide_run (x y : pyval) (t : trace) :
  divide x y t = (t ++ divide_events, truediv x y).
Proof.
  unfold divide, print, time_sleep, emit, lift, mbind, M_bind, divide_events.
  now rewrite <- app_assoc.
Qed.

Lemma slept_app (t u : trace) : slept (t ++ u) = slept t + slept u.
Proof.
  induction t as [|[s|n] t IH]; simpl; lia.
Qed.

Lemma stdout_of_app (t u : trace) :
  stdout_of (t ++ u) = stdout_of t ++ stdout_of u.
Proof.
  induction t as [|[s|n] t IH]; simpl; congruence.
Qed.

(** [/] on operands of which one is not a number. *)
Lemma truediv_non_numeric (x y : pyval) :
  is_numeric x = false \/ is_numeric y = false -> truediv x y = Raised TypeError.
Proof.
  intros [H|H].
  - destruct x; try discriminate H; destruct y as [| |z|f| | |]; reflexivity.
  - destruct y; try discriminate H; destruct x as [| |z|f| | |]; try reflexivity;
      unfold truediv; simpl; unfold float_slot; simpl;
      try (destruct (PyLong_AsDouble _)); reflexivity.
Qed.

(** [/] by the integer zero. *)
Lemma truediv_by_zero (x : pyval) :
  is_numeric x = true -> truediv x (PyInt 0) = Raised ZeroDivisionError.
Proof.
  destruct x as [|b|z|f| | |]; try discriminate; intros _; reflexivity.
Qed.

(** [/] by a float zero: both operands are converted first, so an integer
    too large for a double raises [OverflowError] before the divisor is
    looked at. *)
Lemma truediv_by_float_zero (x : pyval) (s : bool) :
  is_numeric x = true ->
  truediv x (PyFloat (S754_zero s)) =
  match Rounding.to_double x with
  | Some _ => Raised ZeroDivisionError
  | None => Raised OverflowError
  end.
Proof.
  intros Hx. rewrite RoundingFacts.truediv_float by auto.
  unfold float_slot. rewrite RoundingFacts.convert_to_double_numeric by exact Hx.
  now destruct (Rounding.to_double x).
Qed.

(** C1 as stated fails: [divide(10**400, 1)] has numeric operands and a
    non-zero divisor, and returns nothing: it raises [OverflowError]. *)
Lemma divide_overflow :
  is_numeric (PyInt (10 ^ 400)) = true /\
  is_zero (PyInt 1) = false /\
  snd (divide (PyInt (10 ^ 400)) (PyInt 1) []) = Raised OverflowError /\
  ~ returns (snd (divide (PyInt (10 ^ 400)) (PyInt 1) [])).
Proof.
  assert (H : snd (divide (PyInt (10 ^ 400)) (PyInt 1) []) = Raised OverflowError)
    by (vm_compute; reflexivity).
  split; [reflexivity|]. split; [reflexivity|]. split; [exact H|].
  intros [v Hv]. rewrite H in Hv. discriminate Hv.
Qed.

(** C2: for every numeric [x], [divide(x, 0)] fails with
    [ZeroDivisionError] and returns no value (the print and the sleep have
    taken place). *)
Theorem divide_by_zero (x : pyval) (t : trace) :
  is_numeric x = true ->
  divide x (PyInt 0) t = (t ++ divide_events, Raised ZeroDivisionError) /\
  ~ returns (snd (divide x (PyInt 0) t)).
Proof.
  intros Hx. rewrite divide_run, (truediv_by_zero x Hx). split; [done|].
  intros [v Hv]. discriminate Hv.
Qed.

Lemma divide_by_zero_witness :
  divide (PyInt 5) (PyInt 0) [] = ([] ++ divide_events, Raised ZeroDivisionError) /\
  ~ returns (snd (divide (PyInt 5) (PyInt 0) [])).
Proof. apply (divide_by_zero (PyInt 5) []). reflexivity. Defined.

(** C3: every call prints, then sleeps 5, then divides: the trace grows by
    exactly the print followed by the sleep, whatever the operands and the
    outcome; an exception of the division escapes from a trace in which the
    whole delay has elapsed, and [divide(x, 0)] raises [ZeroDivisionError]
    there. *)
Theorem divide_order (x y : pyval) (t : trace) :
  fst (divide x y t) = t ++ [EvPrint "shared task"; EvSleep 5] /\
  snd (divide x y t) = truediv x y /\
  slept (fst (divide x y t)) = slept t + 5 /\
  (forall e, snd (divide x y t) = Raised e ->
     divide x y t = ((t ++ [EvPrint "shared task"]) ++ [EvSleep 5], Raised e)) /\
  (is_numeric x = true -> y = PyInt 0 ->
     divide x y t = ((t ++ [EvPrint "shared task"]) ++ [EvSleep 5],
                     Raised ZeroDivisionError)).
Proof.
  rewrite divide_run. unfold divide_events. cbn [fst snd].
  split; [reflexivity|]. split; [reflexivity|]. split; [|split].
  - rewrite slept_app. simpl. lia.
  - intros e ->. now rewrite <- app_assoc.
  - intros Hx ->. now rewrite (truediv_by_zero x Hx), <- app_assoc.
Qed.

Lemma divide_order_witness :
  divide (PyInt 5) (PyInt 0) [] =
    ([EvPrint "shared task"; EvSleep 5], Raised ZeroDivisionError).
Proof.
  destruct (divide_order (PyInt 5) (PyInt 0) []) as (_ & _ & _ & _ & H).
  exact (H eq_refl eq_refl).
Defined.

(** C4: [divide(10, 2)] sleeps 5 and returns the double [5.0]. *)
Theorem divide_10_2 (t : trace) :
  divide (PyInt 10) (PyInt 2) t =
    (t ++ [EvPrint "shared task"; EvSleep 5], Returned (PyFloat Float64.five)) /\
  slept (fst (divide (PyInt 10) (PyInt 2) t)) = slept t + 5 /\
  Float64.represents Float64.five 5 1.
Proof.
  assert (H : truediv (PyInt 10) (PyInt 2) = Returned (PyFloat Float64.five))
    by (vm_compute; reflexivity).
  rewrite divide_run, H. split; [|split].
  - reflexivity.
  - cbn [fst]. rewrite slept_app. simpl. lia.
  - unfold Float64.represents. apply Z.eqb_eq. vm_compute. reflexivity.
Qed.

(** C5: when [x] or [y] is not a number, the [TypeError] of [/] escapes from
    [divide]: no value is returned and nothing recovers from it. *)
Theorem divide_type_error (x y : pyval) (t : trace) :
  is_numeric x = false \/ is_numeric y = false ->
  divide x y t = (t ++ divide_events, Raised TypeError) /\
  ~ returns (snd (divide x y t)).
Proof.
  intros H. rewrite divide_run, (truediv_non_numeric x y H). split; [done|].
  intros [v Hv]. discriminate Hv.
Qed.

Lemma divide_type_error_witness :
  divide (PyStr "a") (PyInt 1) [] = ([] ++ divide_events, Raised TypeError) /\
  ~ returns (snd (divide (PyStr "a") (PyInt 1) [])).
Proof. apply (divide_type_error (PyStr "a") (PyInt 1) []). left. reflexivity. Defined.

(** C10: the diagnostic output is the one line ['shared task'] whatever the
    arguments: two calls from the same trace write the same output. *)
Theorem divide_output_constant (x y x' y' : pyval) (t : trace) :
  stdout_of (fst (divide x y t)) = stdout_of t ++ ["shared task"] /\
  stdout_of (fst (divide x y t)) = stdout_of (fst (divide x' y' t)).
Proof.
  rewrite !divide_run. cbn [fst]. now rewrite stdout_of_app.
Qed.

(** C9: [divide] performs true division, not floor division.  For integers
    [a] and [b], [b] not zero, the result is never an [int]: it is the double
    nearest to the exact quotient [a / b], or [OverflowError] when that is
    beyond the range of a double.  The double is in canonical form, no
    double is nearer to [a / b], and when [a / b] is itself a non-zero double
    that double is the result. *)
Theorem divide_true_division (a b : Z) (t : trace) :
  b <> 0 ->
  divide (PyInt a) (PyInt b) t =
    (t ++ divide_events,
     if Float64.is_infinite (Rounding.quotient_Z a b) then Raised OverflowError
     else Returned (PyFloat (Rounding.quotient_Z a b))) /\
  (forall v, snd (divide (PyInt a) (PyInt b) t) = Returned v ->
     v = PyFloat (Rounding.quotient_Z a b) /\ v <> PyInt (Rounding.floordiv a b)) /\
  (Float64.is_infinite (Rounding.quotient_Z a b) = false ->
     Float64.valid (Rounding.quotient_Z a b) = true /\
     forall g, Float64.is_finite g = true -> Float64.valid g = true ->
       Float64.distance (Rounding.quotient_Z a b) a b <= Float64.distance g a b) /\
  (forall g, Float64.valid g = true -> Float64.units g <> 0 ->
     Float64.represents g a b -> Rounding.quotient_Z a b = g).
Proof.
  intros Hb.
  assert (Hrun : divide (PyInt a) (PyInt b) t =
    (t ++ divide_events,
     if Float64.is_infinite (Rounding.quotient_Z a b) then Raised OverflowError
     else Returned (PyFloat (Rounding.quotient_Z a b)))).
  { rewrite divide_run, RoundingFacts.truediv_quotient; try reflexivity.
    - unfold Rounding.quotient. cbn [as_long].
      now destruct (Float64.is_infinite _).
    - cbn [is_zero]. now apply Z.eqb_neq. }
  split; [exact Hrun|]. split; [|split].
  - rewrite Hrun. cbn [snd].
    destruct (Float64.is_infinite _); [discriminate|].
    intros v [= <-]. split; [reflexivity|discriminate].
  - intros Hfin. split.
    + now apply RoundingFacts.quotient_Z_valid.
    + intros g Hg Hv. now apply RoundingFacts.quotient_Z_closest.
  - intros g Hv Hu Hq. now apply RoundingFacts.quotient_Z_exact.
Qed.

Lemma divide_true_division_witness :
  divide (PyInt 1) (PyInt 2) [] = (divide_events, Returned (PyFloat Float64.half)).
Proof.
  destruct (divide_true_division 1 2 []) as (Hrun & _ & _ & Hexact);
    [intros H; discriminate H|].
  rewrite Hrun.
  rewrite (Hexact Float64.half).
  - reflexivity.
  - reflexivity.
  - intros H. apply Z.eqb_eq in H. vm_compute in H. discriminate H.
  - unfold Float64.represents. apply Z.eqb_eq. vm_compute. reflexivity.
Defined.

(** [divide(1, 2)] is [0.5], where floor division gives [0]. *)
Example divide_1_2 :
  snd (divide (PyInt 1) (PyInt 2) []) = Returned (PyFloat Float64.half) /\
  Float64.represents Float64.half 1 2 /\
  Rounding.floordiv 1 2 = 0.
Proof.
  split; [vm_compute; reflexivity|]. split; [|reflexivity].
  unfold Float64.represents. apply Z.eqb_eq. vm_compute. reflexivity.
Qed.

(** C9 as stated fails: [divide(1, 3)] returns a double whose value is not
    one third. *)
Lemma divide_1_3_inexact :
  exists f, snd (divide (PyInt 1) (PyInt 3) []) = Returned (PyFloat f) /\
            ~ Float64.represents f 1 3.
Proof.
  exists (S754_finite false 6004799503160661 (-54)).
  split; [vm_compute; reflexivity|].
  unfold Float64.represents. intros H.
  apply Z.eqb_eq in H. vm_compute in H. discriminate H.
Qed.

(* ===================================================================== *)
(** * Properties of the smoke test *)
(* ===================================================================== *)

Module TestViewsFacts.
Import TestViews.

Section Facts.

Variable constraint : list User -> User -> bool.
Variable users_router : APIRouter.

Lemma flush_keeps_id ls : forall h db h' db' l,
  flush constraint ls h db = Some (h', db') ->
  has_id h l -> has_id h' l.
Proof.
  induction ls as [|k ls IH]; intros h db h' db' l Hf Hl; simpl in Hf.
  - now inversion Hf; subst.
  - destruct (h !! k) as [u|] eqn:Hk; [|eauto].
    destruct (constraint (rows db) u); [|discriminate].
    eapply IH; [exact Hf|].
    destruct (decide (k = l)) as [->|Hne].
    + exists (sequence db). now rewrite lookup_insert_eq.
    + destruct Hl as [n Hn]. exists n. now rewrite lookup_insert_ne.
Qed.

Lemma flush_sets_id ls : forall h db h' db' l,
  flush constraint ls h db = Some (h', db') ->
  l ∈ ls -> is_Some (h !! l) -> has_id h' l.
Proof.
  induction ls as [|k ls IH]; intros h db h' db' l Hf Hin Hl; simpl in Hf.
  - now apply elem_of_nil in Hin.
  - destruct (decide (k = l)) as [->|Hne].
    + destruct Hl as [u Hu]. rewrite Hu in Hf.
      destruct (constraint (rows db) u); [|discriminate].
      eapply flush_keeps_id; [exact Hf|].
      exists (sequence db). now rewrite lookup_insert_eq.
    + apply elem_of_cons in Hin as [->|Hin]; [done|].
      destruct (h !! k) as [u|] eqn:Hk; [|eauto].
      destruct (constraint (rows db) u); [|discriminate].
      eapply IH; [exact Hf|exact Hin|]. now rewrite lookup_insert_ne.
Qed.







(** C6: the [id] of a new [User] is unset; when the block
    [with db_session.begin(): db_session.add(user)] completes, that is
    when its commit went through, the same object carries an identifier;
    and from a session with no transaction and nothing pending, on a
    table that accepts the row, the block does complete. *)
Theorem user_id_set (w : World) :
  (forall username email,
     let '(w1, r) := User_new username email w in
     exists l, r = Returned l /\ heap w !! l = None /\
       heap w1 !! l = Some {| username := username; email := email; id := None |}) /\
  (forall w' l, insert_user constraint w = (w', Returned l) -> has_id (heap w') l) /\
  (released w -> pending (db_session w) = [] ->
   constraint (rows (database w))
     {| username := "test"; email := "test@example.com"; id := None |} = true ->
   exists w' l, insert_user constraint w = (w', Returned l) /\
     heap w' !! l ≫= id = Some (sequence (database w))).
Proof.
  split; [|split].
  - intros u e. simpl. exists (fresh (dom (heap w))).
    rewrite lookup_insert_eq. repeat split.
    apply not_elem_of_dom, is_fresh.
  - intros w' l. unfold insert_user, with_, User_new, begin. run_M.
    destruct (in_transaction (db_session w)); run_M; [discriminate|].
    unfold run_body, add. run_M. unfold commit. simpl.
    set (l0 := fresh (dom (heap w))).
    destruct (flush constraint _ _ _) as [[h db]|] eqn:Hf; run_M; [|discriminate].
    intros [= <- <-]. simpl.
    eapply flush_sets_id; [exact Hf| |].
    + destruct (decide _); [done|]. apply elem_of_app. right. now left.
    + rewrite lookup_insert_eq. eauto.
  - unfold released. intros Hr Hp Hc.
    unfold insert_user, with_, User_new, begin. run_M. rewrite Hr. run_M.
    unfold run_body, add. run_M. unfold commit. simpl. rewrite Hp. simpl.
    rewrite lookup_insert_eq, Hc. run_M.
    eexists _, _. split; [reflexivity|]. simpl.
    now rewrite lookup_insert_eq.
Qed.

End Facts.

(** The ways out of the test, run. *)

Example test_passes :
  exists w, test_pytest_setup unique_username example_router example_client
              empty_world = (w, Returned tt) /\
            in_transaction (db_session w) = true /\
            rows (database w) =
              [ {| username := "test"; email := "test@example.com"; id := Some 1 |} ].
Proof. eexists. split; [vm_compute; reflexivity|]. split; reflexivity. Qed.

Example test_fails_on_status :
  test_pytest_setup unique_username example_router broken_client
    empty_world = (empty_world, Raised AssertionError).
Proof. vm_compute. reflexivity. Qed.

Example test_fails_on_insert :
  exists w, test_pytest_setup unique_username example_router example_client
              taken_world = (w, Raised IntegrityError) /\
            released w /\ database w = database taken_world.
Proof. eexists. split; [vm_compute; reflexivity|]. split; reflexivity. Qed.

(** The last assertion tests the truth of [user.id]: an identifier [0] is
    set and fails it. *)
Example test_fails_on_zero_id :
  exists w, test_pytest_setup unique_username example_router example_client
              zero_world = (w, Raised AssertionError) /\
            in_transaction (db_session w) = true /\
            rows (database w) =
              [ {| username := "test"; email := "test@example.com"; id := Some 0 |} ].
Proof. eexists. split; [vm_compute; reflexivity|]. split; reflexivity. Qed.

End TestViewsFacts.

Module TestViewsWitnesses.
Import TestViews TestViewsFacts.



Lemma user_id_set_witness :
  exists w' l, insert_user unique_username empty_world = (w', Returned l) /\
    heap w' !! l ≫= id = Some 1.
Proof.
  destruct (user_id_set unique_username empty_world) as (_ & _ & H).
  apply H; reflexivity.
Defined.

End TestViewsWitnesses.

(* ===================================================================== *)
(** * More on the rounded quotient *)
(* ===================================================================== *)

Module QuotientFacts.
Import Rounding RoundingFacts.

(** ** Common factors and signs *)

Lemma ulp_shift_scale (a b c : Z) : 0 < b -> 0 < c ->
  ulp_shift (a * c) (b * c) = ulp_shift a b.
Proof.
  intros Hb Hc. unfold ulp_shift.
  replace (a * c * 2 ^ 1074) with (a * 2 ^ 1074 * c) by ring.
  now rewrite Z.div_mul_cancel_r by lia.
Qed.

Lemma nearest_double_scale (s : bool) (a b c : Z) : 0 < b -> 0 < c ->
  nearest_double s (a * c) (b * c) = nearest_double s a b.
Proof.
  intros Hb Hc. unfold nearest_double. rewrite ulp_shift_scale by lia.
  pose proof (ulp_shift_nonneg a b) as Hk.
  assert (Hp : 0 < 2 ^ ulp_shift a b) by (apply Z.pow_pos_nonneg; lia).
  replace (a * c * 2 ^ 1074) with (a * 2 ^ 1074 * c) by ring.
  replace (b * c * 2 ^ ulp_shift a b) with (b * 2 ^ ulp_shift a b * c) by ring.
  rewrite round_half_even_cancel by nia.
  reflexivity.
Qed.

Lemma quotient_Z_scale (a b c : Z) : b <> 0 -> 0 < c ->
  quotient_Z (a * c) (b * c) = quotient_Z a b.
Proof.
  intros Hb Hc. unfold quotient_Z.
  assert (Ea : (a * c =? 0) = (a =? 0)).
  { destruct (Z.eqb_spec a 0), (Z.eqb_spec (a * c) 0); try reflexivity; nia. }
  assert (Sa : (a * c <? 0) = (a <? 0)).
  { destruct (Z.ltb_spec a 0), (Z.ltb_spec (a * c) 0); try reflexivity; nia. }
  assert (Sb : (b * c <? 0) = (b <? 0)).
  { destruct (Z.ltb_spec b 0), (Z.ltb_spec (b * c) 0); try reflexivity; nia. }
  rewrite Ea, Sa, Sb. destruct (a =? 0); [reflexivity|].
  rewrite !Z.abs_mul, (Z.abs_eq c) by lia.
  apply nearest_double_scale; lia.
Qed.

Lemma nearest_double_opp (s : bool) (a b : Z) :
  nearest_double (negb s) a b = SFopp (nearest_double s a b).
Proof.
  unfold nearest_double.
  destruct (_ =? 0); [reflexivity|].
  destruct (_ <=? _); [reflexivity|].
  destruct (_ =? _); reflexivity.
Qed.

Lemma quotient_Z_opp_l (a b : Z) : a <> 0 ->
  quotient_Z (- a) b = SFopp (quotient_Z a b).
Proof.
  intros Ha. unfold quotient_Z.
  destruct (Z.eqb_spec a 0); [contradiction|].
  destruct (Z.eqb_spec (- a) 0); [lia|].
  rewrite Z.abs_opp, <- nearest_double_opp. f_equal.
  destruct (Z.ltb_spec a 0), (Z.ltb_spec (- a) 0), (b <? 0); try reflexivity; lia.
Qed.

Lemma quotient_Z_opp_r (a b : Z) : a <> 0 -> b <> 0 ->
  quotient_Z a (- b) = SFopp (quotient_Z a b).
Proof.
  intros Ha Hb. unfold quotient_Z.
  destruct (Z.eqb_spec a 0); [contradiction|].
  rewrite Z.abs_opp, <- nearest_double_opp. f_equal.
  destruct (Z.ltb_spec b 0), (Z.ltb_spec (- b) 0), (a <? 0); try reflexivity; lia.
Qed.

(** Whether the nearest double is infinite, read off the rounded quotient. *)
Lemma nearest_double_infinite (s : bool) (a b : Z) :
  Float64.is_infinite (nearest_double s a b) =
  negb (round_half_even (a * 2 ^ 1074) (b * 2 ^ ulp_shift a b) =? 0) &&
  (2 ^ 2098 <=? round_half_even (a * 2 ^ 1074) (b * 2 ^ ulp_shift a b)
                * 2 ^ ulp_shift a b).
Proof.
  unfold nearest_double.
  destruct (_ =? 0); [reflexivity|].
  destruct (_ <=? _); [reflexivity|].
  destruct (_ =? _); reflexivity.
Qed.

Lemma nearest_double_int_quotient (s : bool) (q b : Z) :
  0 < q < 2 ^ 53 -> 0 < b ->
  Float64.is_infinite (nearest_double s (q * b) b) = false /\
  Float64.units (nearest_double s (q * b) b) = (if s then -1 else 1) * (q * 2 ^ 1074).
Proof.
  intros Hq Hb.
  assert (Ha : 0 < q * b) by nia.
  assert (HT : q * b * 2 ^ 1074 / b = q * 2 ^ 1074).
  { replace (q * b * 2 ^ 1074) with (q * 2 ^ 1074 * b) by ring. apply Z.div_mul. lia. }
  assert (HL : Z.log2 q <= 52).
  { enough (Z.log2 q < 53) by lia. apply Z.log2_lt_pow2; lia. }
  pose proof (Z.log2_nonneg q) as HL0.
  assert (Hk : ulp_shift (q * b) b = Z.log2 q + 1022).
  { unfold ulp_shift. rewrite HT, Z.log2_mul_pow2 by lia. lia. }
  set (k := Z.log2 q + 1022) in *.
  assert (Hp : 0 < 2 ^ k) by (apply Z.pow_pos_nonneg; lia).
  assert (Hp' : 0 < 2 ^ (1074 - k)) by (apply Z.pow_pos_nonneg; lia).
  assert (HR : round_half_even (q * b * 2 ^ 1074) (b * 2 ^ k) = q * 2 ^ (1074 - k)).
  { replace (q * b * 2 ^ 1074) with (q * 2 ^ (1074 - k) * (b * 2 ^ k)).
    - apply round_half_even_exact. nia.
    - replace 1074 with (1074 - k + k) at 2 by lia.
      rewrite (Z.pow_add_r 2 (1074 - k) k) by lia. ring. }
  assert (HRk : q * 2 ^ (1074 - k) * 2 ^ k = q * 2 ^ 1074).
  { rewrite <- Z.mul_assoc, <- Z.pow_add_r by lia. do 2 f_equal. lia. }
  assert (Hinf : Float64.is_infinite (nearest_double s (q * b) b) = false).
  { rewrite nearest_double_infinite, Hk, HR, HRk.
    apply andb_false_intro2. apply Z.leb_gt.
    apply pow2_2098_low; lia. }
  split; [exact Hinf|].
  rewrite (units_nearest_double s (q * b) b Ha Hb Hinf), Hk, HR, HRk.
  reflexivity.
Qed.

(** An integer quotient below [2^53] is returned exactly. *)
Lemma quotient_Z_int (q b : Z) : b <> 0 -> Z.abs q < 2 ^ 53 ->
  Float64.is_infinite (quotient_Z (q * b) b) = false /\
  Float64.units (quotient_Z (q * b) b) = q * 2 ^ 1074.
Proof.
  intros Hb Hq. unfold quotient_Z.
  destruct (Z.eqb_spec (q * b) 0) as [E|E].
  - assert (q = 0) as -> by nia. split; reflexivity.
  - assert (Hq0 : q <> 0) by nia.
    rewrite Z.abs_mul.
    pose proof (nearest_double_int_quotient (xorb (q * b <? 0) (b <? 0))
                  (Z.abs q) (Z.abs b) ltac:(lia) ltac:(lia)) as [H1 H2].
    split; [exact H1|]. rewrite H2.
    destruct (Z.ltb_spec (q * b) 0), (Z.ltb_spec b 0); cbn [xorb]; nia.
Qed.

(** ** The range of a double *)

Lemma pow2_facts :
  2 ^ 1024 = 2 ^ 54 * 2 ^ 970 /\ 2 ^ 1075 = 2 * 2 ^ 1074 /\
  2 ^ 2045 = 2 ^ 970 * 2 ^ 1075 /\ 2 ^ 2098 = 2 ^ 53 * 2 ^ 2045 /\
  2 ^ 2098 = 2 ^ 1024 * 2 ^ 1074.
Proof.
  repeat split; rewrite <- ?Z.pow_add_r by lia; reflexivity.
Qed.

(** In the last binade the quotient rounds up to [2^53] units exactly from
    half a unit below on. *)
Lemma round_last_binade (n d : Z) : 0 <= n -> 0 < d -> n / d < 2 ^ 53 ->
  (round_half_even n d = 2 ^ 53 <-> (2 ^ 54 - 1) * d <= 2 * n).
Proof.
  intros Hn Hd HF. unfold round_half_even.
  pose proof (Z.div_mod n d ltac:(lia)) as E.
  pose proof (Z.mod_pos_bound n d Hd) as B.
  change (2 ^ 53) with 9007199254740992 in *.
  change (2 ^ 54) with 18014398509481984.
  set (q := n / d) in *. set (r := n mod d) in *.
  pose proof (Zeven_odd_dec q) as Hpar.
  destruct (Z.compare_spec (2 * r) d) as [C|C|C].
  - destruct (Z.even q) eqn:Ev.
    + apply Z.even_spec in Ev as [c Hc]. split; intros H; nia.
    + assert (Z.odd q = true) as Od by (rewrite <- Z.negb_even, Ev; reflexivity).
      apply Z.odd_spec in Od as [c Hc]. split; intros H; nia.
  - split; intros H; nia.
  - split; intros H; nia.
Qed.

Lemma nearest_double_overflow (s : bool) (a b : Z) : 0 < a -> 0 < b ->
  Float64.is_infinite (nearest_double s a b) = true <->
  overflow_threshold * b <= a.
Proof.
  intros Ha Hb. rewrite nearest_double_infinite.
  pose proof (ulp_shift_nonneg a b) as Hk0.
  pose proof (round_bounds a b Ha Hb) as [HR HR52].
  pose proof (ulp_shift_bounds a b Ha Hb) as [HF HF52].
  pose proof (quotient_units_nonneg a b Ha Hb) as HT0.
  assert (Hkdef : ulp_shift a b = Z.max (Z.log2 (a * 2 ^ 1074 / b) - 52) 0)
    by reflexivity.
  destruct pow2_facts as (P1 & P2 & P3 & P4 & P5).
  unfold overflow_threshold.
  set (k := ulp_shift a b) in *.
  set (R := round_half_even (a * 2 ^ 1074) (b * 2 ^ k)) in *.
  assert (Hp : 0 < 2 ^ k) by (apply Z.pow_pos_nonneg; lia).
  assert (HY : 0 < 2 ^ 1074) by (apply Z.pow_pos_nonneg; lia).
  assert (HP : 0 < 2 ^ 970) by (apply Z.pow_pos_nonneg; lia).
  assert (Hd : 0 < b * 2 ^ k) by (apply Z.mul_pos_pos; lia).
  assert (Hn : 0 <= a * 2 ^ 1074) by (apply Z.lt_le_incl, Z.mul_pos_pos; lia).
  rewrite Z.div_div in HF, HF52 by lia.
  destruct (Z.lt_trichotomy k 2045) as [Klt|[Keq|Kgt]].
  - (* below the last binade: no overflow, and the quotient is small *)
    assert (Hlow : R * 2 ^ k < 2 ^ 2098).
    { apply Z.le_lt_trans with (2 ^ 53 * 2 ^ k); [nia|].
      rewrite <- Z.pow_add_r by lia. apply Z.pow_lt_mono_r; lia. }
    apply Z.leb_gt in Hlow. rewrite Hlow, andb_false_r.
    split; [discriminate|]. intros Hthr. exfalso.
    (* the threshold forces k >= 2045 *)
    assert (HT : 2 ^ 2097 <= a * 2 ^ 1074 / b).
    { apply Z.div_le_lower_bound; [lia|].
      replace (2 ^ 2097) with (2 ^ 53 * 2 ^ 970 * 2 ^ 1074)
        by (rewrite <- !Z.pow_add_r by lia; reflexivity).
      change (2 ^ 54) with 18014398509481984 in *.
      change (2 ^ 53) with 9007199254740992 in *.
      rewrite P1 in Hthr.
      set (Y := 2 ^ 1074) in *. set (P := 2 ^ 970) in *.
      assert (9007199254740992 * P * b <= a) by nia.
      nia. }
    assert (0 < a * 2 ^ 1074 / b).
    { eapply Z.lt_le_trans; [|exact HT]. apply Z.pow_pos_nonneg; lia. }
    apply Z.log2_le_pow2 in HT; lia.
  - (* the last binade *)
    assert (HRR : R = 2 ^ 53 <-> (2 ^ 54 - 1) * (b * 2 ^ k) <= 2 * (a * 2 ^ 1074))
      by (apply round_last_binade; assumption).
    rewrite Keq in HRR. rewrite Keq.
    assert (Hiff : (2 ^ 54 - 1) * (b * 2 ^ 2045) <= 2 * (a * 2 ^ 1074) <->
                   (2 ^ 1024 - 2 ^ 970) * b <= a).
    { rewrite P3, P2, P1.
      change (2 ^ 54) with 18014398509481984.
      set (Y := 2 ^ 1074) in *. set (P := 2 ^ 970) in *.
      split; intros H; nia. }
    rewrite <- Hiff, <- HRR. rewrite P4.
    change (2 ^ 53) with 9007199254740992 in *.
    set (Q := 2 ^ 2045) in *.
    split.
    + intros H. apply andb_prop in H as [_ H]. apply Z.leb_le in H. nia.
    + intros ->. apply andb_true_intro. split; [reflexivity|].
      apply Z.leb_le. lia.
  - (* beyond the last binade: overflow, and the quotient is large *)
    assert (Hhigh : 2 ^ 2098 <= R * 2 ^ k)
      by (apply pow2_2098_high; [lia|apply HR52; lia]).
    assert (R <> 0).
    { specialize (HR52 ltac:(lia)). change (2 ^ 52) with 4503599627370496 in HR52. lia. }
    split; intros _.
    + specialize (HF52 ltac:(lia)).
      assert (Hnd : 2 ^ 52 * (b * 2 ^ k) <= a * 2 ^ 1074).
      { pose proof (Z.mul_div_le (a * 2 ^ 1074) (b * 2 ^ k) Hd). nia. }
      assert (Hk2 : 2 ^ 2046 <= 2 ^ k) by (apply Z.pow_le_mono_r; lia).
      replace (2 ^ 2046) with (2 ^ 972 * 2 ^ 1074) in Hk2
        by (rewrite <- Z.pow_add_r by lia; reflexivity).
      apply Z.le_trans with (2 ^ 1024 * b).
      * apply Z.mul_le_mono_nonneg_r; lia.
      * replace (2 ^ 1024) with (2 ^ 52 * 2 ^ 972)
          by (rewrite <- Z.pow_add_r by lia; reflexivity).
        change (2 ^ 52) with 4503599627370496 in *.
        set (Y := 2 ^ 1074) in *. set (W := 2 ^ 972) in *. set (K := 2 ^ k) in *.
        assert (0 < W) by (apply Z.pow_pos_nonneg; lia).
        assert (4503599627370496 * b * (W * Y) <= a * Y) by nia.
        nia.
    + apply andb_true_intro. split; [|now apply Z.leb_le].
      now destruct (Z.eqb_spec R 0).
Qed.

Lemma overflow_threshold_pos : 0 < overflow_threshold.
Proof. reflexivity. Qed.

Lemma quotient_Z_overflow (a b : Z) : b <> 0 ->
  Float64.is_infinite (quotient_Z a b) = true <->
  overflow_threshold * Z.abs b <= Z.abs a.
Proof.
  intros Hb. unfold quotient_Z.
  pose proof overflow_threshold_pos as Hthr.
  destruct (Z.eqb_spec a 0) as [->|Ha].
  - cbn [Float64.is_infinite Z.abs]. split; [discriminate|].
    intros H. assert (0 < overflow_threshold * Z.abs b) by (apply Z.mul_pos_pos; lia).
    lia.
  - apply nearest_double_overflow; lia.
Qed.

Lemma to_double_overflow (z : Z) :
  to_double (PyInt z) = None <-> overflow_threshold <= Z.abs z.
Proof.
  pose proof (quotient_Z_overflow z 1 ltac:(lia)) as H.
  change (Z.abs 1) with 1 in H. rewrite Z.mul_1_r in H. rewrite <- H.
  unfold to_double. destruct (Float64.is_infinite _); split; congruence.
Qed.

(** The distance of the rounded quotient, without signs. *)
Lemma distance_quotient_Z (a b : Z) : a <> 0 -> b <> 0 ->
  Float64.is_infinite (quotient_Z a b) = false ->
  Float64.distance (quotient_Z a b) a b =
  Z.abs (round_half_even (Z.abs a * 2 ^ 1074)
           (Z.abs b * 2 ^ ulp_shift (Z.abs a) (Z.abs b))
         * (Z.abs b * 2 ^ ulp_shift (Z.abs a) (Z.abs b)) - Z.abs a * 2 ^ 1074).
Proof.
  intros Ha Hb Hinf. unfold Float64.distance, quotient_Z in *.
  destruct (Z.eqb_spec a 0); [contradiction|].
  rewrite (units_nearest_double _ (Z.abs a) (Z.abs b) ltac:(lia) ltac:(lia) Hinf).
  set (k := ulp_shift (Z.abs a) (Z.abs b)).
  set (R := round_half_even _ _).
  replace (R * (Z.abs b * 2 ^ k)) with (R * 2 ^ k * Z.abs b) by ring.
  set (X := R * 2 ^ k). set (Y := 2 ^ 1074).
  pose proof (signed_distance (xorb (a <? 0) (b <? 0)) a b X Y Ha Hb) as HS.
  rewrite eqb_reflx in HS. rewrite <- HS. f_equal.
  destruct (xorb (a <? 0) (b <? 0)); ring.
Qed.

(** Above the subnormal range the relative error is at most [2^-53]. *)
Lemma quotient_Z_accuracy (a b : Z) : a <> 0 -> b <> 0 ->
  Z.abs b <= Z.abs a * 2 ^ 1022 ->
  Float64.is_infinite (quotient_Z a b) = false ->
  2 ^ 53 * Float64.distance (quotient_Z a b) a b <= Z.abs a * 2 ^ 1074.
Proof.
  intros Ha Hb Hnorm Hinf.
  rewrite (distance_quotient_Z a b Ha Hb Hinf).
  assert (Ha' : 0 < Z.abs a) by lia. assert (Hb' : 0 < Z.abs b) by lia.
  pose proof (ulp_shift_nonneg (Z.abs a) (Z.abs b)) as Hk0.
  pose proof (ulp_shift_bounds (Z.abs a) (Z.abs b) Ha' Hb') as [_ HF52].
  set (k := ulp_shift (Z.abs a) (Z.abs b)) in *.
  assert (Hp : 0 < 2 ^ k) by (apply Z.pow_pos_nonneg; lia).
  assert (Hd : 0 < Z.abs b * 2 ^ k) by (apply Z.mul_pos_pos; lia).
  pose proof (round_half_even_half (Z.abs a * 2 ^ 1074) (Z.abs b * 2 ^ k) Hd) as HH.
  (* the quotient is at least 2^52 units in the last place *)
  assert (HT : 2 ^ 52 <= Z.abs a * 2 ^ 1074 / Z.abs b).
  { apply Z.div_le_lower_bound; [lia|].
    replace (2 ^ 1074) with (2 ^ 1022 * 2 ^ 52)
      by (rewrite <- Z.pow_add_r by lia; reflexivity).
    change (2 ^ 52) with 4503599627370496.
    set (W := 2 ^ 1022) in *. nia. }
  assert (HF : 2 ^ 52 <= Z.abs a * 2 ^ 1074 / Z.abs b / 2 ^ k).
  { destruct (Z.eq_dec k 0) as [K|K].
    - rewrite K. change (2 ^ 0) with 1. now rewrite Z.div_1_r.
    - apply HF52. lia. }
  rewrite Z.div_div in HF by lia.
  assert (Hn : 2 ^ 52 * (Z.abs b * 2 ^ k) <= Z.abs a * 2 ^ 1074).
  { pose proof (Z.mul_div_le (Z.abs a * 2 ^ 1074) (Z.abs b * 2 ^ k) Hd). nia. }
  change (2 ^ 53) with 9007199254740992. change (2 ^ 52) with 4503599627370496 in Hn.
  set (D := Z.abs b * 2 ^ k) in *. set (N := Z.abs a * 2 ^ 1074) in *.
  set (R := round_half_even N D) in *. set (RD := R * D) in *.
  lia.
Qed.

(** The rounded quotient is never a NaN. *)
Lemma quotient_Z_finite (a b : Z) :
  Float64.is_infinite (quotient_Z a b) = false ->
  Float64.is_finite (quotient_Z a b) = true.
Proof.
  unfold quotient_Z. destruct (a =? 0); [reflexivity|].
  unfold nearest_double.
  destruct (_ =? 0); [reflexivity|].
  destruct (_ <=? _); [discriminate|].
  destruct (_ =? _); reflexivity.
Qed.

Lemma is_infinite_opp (f : spec_float) :
  Float64.is_infinite (SFopp f) = Float64.is_infinite f.
Proof. now destruct f. Qed.

(** ** The operator on integers *)

Lemma truediv_int (a b : Z) : b <> 0 ->
  truediv (PyInt a) (PyInt b) =
  if Float64.is_infinite (quotient_Z a b) then Raised OverflowError
  else Returned (PyFloat (quotient_Z a b)).
Proof.
  intros Hb. rewrite (truediv_long (PyInt a) (PyInt b) a b eq_refl eq_refl).
  unfold long_true_divide. destruct (Z.eqb_spec b 0); [contradiction|].
  now rewrite div_Z_nearest.
Qed.

(** An integer zero divisor, [0] or [False], whatever the dividend. *)
Lemma truediv_by_int_zero (x y : pyval) :
  is_numeric x = true -> as_long y = Some 0 ->
  truediv x y = Raised ZeroDivisionError.
Proof.
  intros Hx Hy.
  destruct (as_long x) as [a|] eqn:Ex.
  - now rewrite (truediv_long x y a 0 Ex Hy).
  - rewrite truediv_float; auto.
    + unfold float_slot. rewrite convert_to_double_numeric by exact Hx.
      destruct x as [|bx|zx|fx| | |]; try discriminate Hx; try discriminate Ex.
      cbn [to_double].
      destruct y as [|c|z| | | |]; try discriminate Hy; cbn [as_long] in Hy.
      * destruct c; [discriminate Hy|reflexivity].
      * injection Hy as ->. reflexivity.
    + destruct y; try discriminate Hy; reflexivity.
Qed.

Lemma too_large_to_double (x : pyval) : is_numeric x = true ->
  too_large x = true <-> to_double x = None.
Proof.
  intros Hx. unfold too_large.
  destruct x as [|b|z|f| | |]; try discriminate Hx; cbn [as_long].
  - rewrite Z.leb_le. symmetry. exact (to_double_overflow (Z.b2z b)).
  - rewrite Z.leb_le. symmetry. exact (to_double_overflow z).
  - cbn [to_double]. split; discriminate.
Qed.

End QuotientFacts.

(* ===================================================================== *)
(** * More properties of [divide] *)
(* ===================================================================== *)

(** C1: for numbers [x] and [y], [y] not zero, [divide(x, y)] returns the
    quotient [x / y] as a double: for two integers the double nearest to the
    exact quotient, otherwise the IEEE 754 quotient of the operands as
    doubles.  It raises [OverflowError] instead exactly when there is no such
    double: for two integers when [|x| >= (2^1024 - 2^970) * |y|], whatever
    the size of each; with a float operand when the integer operand is
    [2^1024 - 2^970] or more in magnitude. *)
Theorem divide_quotient (x y : pyval) (t : trace) :
  is_numeric x = true -> is_numeric y = true -> is_zero y = false ->
  divide x y t =
    (t ++ divide_events,
     match Rounding.quotient x y with
     | Some f => Returned (PyFloat f)
     | None => Raised OverflowError
     end) /\
  (Rounding.quotient x y = None <-> Rounding.out_of_range x y = true).
Proof.
  intros Hx Hy Hz. split.
  - now rewrite divide_run, (RoundingFacts.truediv_quotient x y Hx Hy Hz).
  - unfold Rounding.quotient, Rounding.out_of_range.
    pose proof (QuotientFacts.too_large_to_double x Hx) as Tx.
    pose proof (QuotientFacts.too_large_to_double y Hy) as Ty.
    destruct (as_long x) as [a|] eqn:Ex; [destruct (as_long y) as [b|] eqn:Ey|].
    + assert (Hb : b <> 0).
      { destruct y as [|c|z| | | |]; try discriminate Ey;
          cbn [as_long is_zero] in *; injection Ey as <-.
        - destruct c; [intros H; discriminate H|discriminate Hz].
        - apply Z.eqb_neq. exact Hz. }
      rewrite Z.leb_le, <- (QuotientFacts.quotient_Z_overflow a b Hb).
      destruct (Float64.is_infinite _); split; congruence.
    + rewrite orb_true_iff, Tx, Ty.
      destruct (Rounding.to_double x), (Rounding.to_double y);
        split; try tauto; try discriminate; intros [H|H]; discriminate H.
    + rewrite orb_true_iff, Tx, Ty.
      destruct (Rounding.to_double x), (Rounding.to_double y);
        split; try tauto; try discriminate; intros [H|H]; discriminate H.
Qed.

Lemma divide_quotient_witness :
  divide (PyInt (10 ^ 400)) (PyInt (10 ^ 399)) [] =
    (divide_events, Returned (PyFloat (S754_finite false 5629499534213120 (-49)))) /\
  Rounding.out_of_range (PyInt (10 ^ 400)) (PyInt (10 ^ 399)) = false.
Proof.
  destruct (divide_quotient (PyInt (10 ^ 400)) (PyInt (10 ^ 399)) [])
    as [Hrun Hiff]; try reflexivity.
  assert (Hq : Rounding.quotient (PyInt (10 ^ 400)) (PyInt (10 ^ 399)) =
               Some (S754_finite false 5629499534213120 (-49)))
    by (vm_compute; reflexivity).
  rewrite Hrun, Hq. split; [reflexivity|].
  destruct (Rounding.out_of_range _ _); [|reflexivity].
  destruct Hiff as [_ H]. rewrite Hq in H. discriminate (H eq_refl).
Defined.

(** X1: a common positive factor of two integer operands does not change
    the call: [divide(a * c, b * c)] is [divide(a, b)], so operands that are
    each too large for a double still divide when their quotient is not. *)
Theorem divide_scale (a b c : Z) (t : trace) :
  b <> 0 -> 0 < c ->
  divide (PyInt (a * c)) (PyInt (b * c)) t = divide (PyInt a) (PyInt b) t.
Proof.
  intros Hb Hc. rewrite !divide_run. f_equal.
  rewrite !QuotientFacts.truediv_int by nia.
  now rewrite QuotientFacts.quotient_Z_scale.
Qed.

Lemma divide_scale_witness :
  divide (PyInt (10 * 10 ^ 399)) (PyInt (1 * 10 ^ 399)) [] =
  divide (PyInt 10) (PyInt 1) [].
Proof. apply (divide_scale 10 1 (10 ^ 399) []); [discriminate|reflexivity]. Defined.

(** X2: for non-zero integers, changing the sign of either operand negates
    the result: the float returned is the opposite one, and an
    [OverflowError] stays one. *)
Theorem divide_opp (a b : Z) (t : trace) :
  a <> 0 -> b <> 0 ->
  snd (divide (PyInt (- a)) (PyInt b) t) =
    Rounding.negate (snd (divide (PyInt a) (PyInt b) t)) /\
  snd (divide (PyInt a) (PyInt (- b)) t) =
    Rounding.negate (snd (divide (PyInt a) (PyInt b) t)).
Proof.
  intros Ha Hb. rewrite !divide_run. cbn [snd].
  rewrite !QuotientFacts.truediv_int by lia.
  rewrite QuotientFacts.quotient_Z_opp_l, QuotientFacts.quotient_Z_opp_r by assumption.
  rewrite QuotientFacts.is_infinite_opp.
  now destruct (Float64.is_infinite _).
Qed.

Lemma divide_opp_witness :
  snd (divide (PyInt (- 7)) (PyInt 2) []) =
    Rounding.negate (snd (divide (PyInt 7) (PyInt 2) [])) /\
  snd (divide (PyInt 7) (PyInt (- 2)) []) =
    Rounding.negate (snd (divide (PyInt 7) (PyInt 2) [])).
Proof. apply (divide_opp 7 2 []); discriminate. Defined.

(** X3: when [b] divides [a] and the quotient [q] is below [2^53] in
    magnitude, [divide(a, b)] returns the finite float whose value is
    exactly [q]. *)
Theorem divide_exact_multiple (q b : Z) (t : trace) :
  b <> 0 -> Z.abs q < 2 ^ 53 ->
  exists f,
    divide (PyInt (q * b)) (PyInt b) t = (t ++ divide_events, Returned (PyFloat f)) /\
    Float64.is_finite f = true /\
    Float64.represents f q 1.
Proof.
  intros Hb Hq.
  destruct (QuotientFacts.quotient_Z_int q b Hb Hq) as [Hinf Hu].
  exists (Rounding.quotient_Z (q * b) b). split; [|split].
  - now rewrite divide_run, QuotientFacts.truediv_int, Hinf.
  - now apply QuotientFacts.quotient_Z_finite.
  - unfold Float64.represents. now rewrite Z.mul_1_r.
Qed.

Lemma divide_exact_multiple_witness :
  exists f,
    divide (PyInt (21 * (-3))) (PyInt (-3)) [] =
      ([] ++ divide_events, Returned (PyFloat f)) /\
    Float64.is_finite f = true /\
    Float64.represents f 21 1.
Proof. apply (divide_exact_multiple 21 (-3) []); [discriminate|reflexivity]. Defined.

(** X4: for integers, [divide(a, b)] raises [OverflowError] exactly when
    [|a| >= (2^1024 - 2^970) * |b|]; below that it returns a finite float,
    never an infinity or a NaN. *)
Theorem divide_overflow_iff (a b : Z) (t : trace) :
  b <> 0 ->
  (snd (divide (PyInt a) (PyInt b) t) = Raised OverflowError <->
   Rounding.overflow_threshold * Z.abs b <= Z.abs a) /\
  (Z.abs a < Rounding.overflow_threshold * Z.abs b ->
   exists f, snd (divide (PyInt a) (PyInt b) t) = Returned (PyFloat f) /\
             Float64.is_finite f = true).
Proof.
  intros Hb. rewrite divide_run. cbn [snd].
  rewrite QuotientFacts.truediv_int by exact Hb.
  pose proof (QuotientFacts.quotient_Z_overflow a b Hb) as Hov.
  pose proof (QuotientFacts.quotient_Z_finite a b) as Hfin.
  destruct (Float64.is_infinite _); split.
  - split; [intros _; now apply Hov|reflexivity].
  - intros Hlt. assert (Rounding.overflow_threshold * Z.abs b <= Z.abs a)
      by now apply Hov. lia.
  - split; [discriminate|]. intros H. apply Hov in H. discriminate H.
  - intros _. eexists. split; [reflexivity|]. now apply Hfin.
Qed.

Lemma divide_overflow_iff_witness :
  snd (divide (PyInt (2 ^ 1024)) (PyInt 1) []) = Raised OverflowError.
Proof.
  destruct (divide_overflow_iff (2 ^ 1024) 1 []) as [H _]; [discriminate|].
  apply H. apply Z.leb_le. vm_compute. reflexivity.
Defined.

(** X5: for non-zero integers whose quotient is at least [2^-1022] in
    magnitude, the float returned is within a relative error of [2^-53] of
    the exact quotient. *)
Theorem divide_accuracy (a b : Z) (t : trace) (f : spec_float) :
  a <> 0 -> b <> 0 -> Z.abs b <= Z.abs a * 2 ^ 1022 ->
  snd (divide (PyInt a) (PyInt b) t) = Returned (PyFloat f) ->
  2 ^ 53 * Float64.distance f a b <= Z.abs a * 2 ^ 1074.
Proof.
  intros Ha Hb Hn. rewrite divide_run. cbn [snd].
  rewrite QuotientFacts.truediv_int by exact Hb.
  destruct (Float64.is_infinite _) eqn:E; [discriminate|].
  intros [= <-]. now apply QuotientFacts.quotient_Z_accuracy.
Qed.

Lemma divide_accuracy_witness :
  2 ^ 53 * Float64.distance (S754_finite false 6004799503160661 (-54)) 1 3
  <= Z.abs 1 * 2 ^ 1074.
Proof.
  apply (divide_accuracy 1 3 []).
  - discriminate.
  - discriminate.
  - apply Z.leb_le. vm_compute. reflexivity.
  - vm_compute. reflexivity.
Defined.

(** X6: a boolean operand counts as the integer 0 or 1, on either side and
    whatever the other operand: [divide(True, y)] is [divide(1, y)]. *)
Theorem divide_bool (b : bool) (y : pyval) (t : trace) :
  divide (PyBool b) y t = divide (PyInt (Z.b2z b)) y t /\
  divide y (PyBool b) t = divide y (PyInt (Z.b2z b)) t.
Proof.
  rewrite !divide_run. split; f_equal.
  - destruct y as [|c|z|f| | |]; reflexivity.
  - destruct y as [|c|z|f| | |]; reflexivity.
Qed.

(** X7: with a float zero as divisor, both operands are converted before
    the divisor is tested: [divide(x, 0.0)] raises [ZeroDivisionError] for
    every float and every integer below [2^1024 - 2^970] in magnitude, and
    [OverflowError] for the integers from there on. *)
Theorem divide_by_float_zero (x : pyval) (s : bool) (t : trace) :
  is_numeric x = true ->
  divide x (PyFloat (S754_zero s)) t =
    (t ++ divide_events,
     if Rounding.too_large x then Raised OverflowError
     else Raised ZeroDivisionError).
Proof.
  intros Hx. rewrite divide_run, (truediv_by_float_zero x s Hx).
  pose proof (QuotientFacts.too_large_to_double x Hx) as H.
  destruct (Rounding.too_large x), (Rounding.to_double x) as [f|];
    try reflexivity.
  - destruct H as [H _]. discriminate (H eq_refl).
  - destruct H as [_ H]. discriminate (H eq_refl).
Qed.

Lemma divide_by_float_zero_witness :
  divide (PyInt (10 ^ 400)) (PyFloat (S754_zero false)) [] =
    ([] ++ divide_events,
     if Rounding.too_large (PyInt (10 ^ 400)) then Raised OverflowError
     else Raised ZeroDivisionError).
Proof.
  apply (divide_by_float_zero (PyInt (10 ^ 400)) false []). reflexivity.
Defined.

(** X8: the outcomes of [divide], for any two values: a returned value is a
    float, and then both operands are numbers and the divisor is not zero;
    [TypeError] is raised exactly for an operand that is not a number,
    [ZeroDivisionError] only for a zero divisor, [OverflowError] only with an
    integer operand; nothing else is raised. *)
Theorem divide_outcomes (x y : pyval) (t : trace) :
  match snd (divide x y t) with
  | Returned v =>
      (exists f, v = PyFloat f) /\
      is_numeric x = true /\ is_numeric y = true /\ is_zero y = false
  | Raised TypeError => is_numeric x = false \/ is_numeric y = false
  | Raised ZeroDivisionError =>
      is_numeric x = true /\ is_numeric y = true /\ is_zero y = true
  | Raised OverflowError =>
      is_numeric x = true /\ is_numeric y = true /\
      (is_int x = true \/ is_int y = true)
  | Raised _ => False
  end.
Proof.
  rewrite divide_run. cbn [snd].
  destruct (is_numeric x) eqn:Hx;
    [|rewrite truediv_non_numeric by (left; exact Hx); now left].
  destruct (is_numeric y) eqn:Hy;
    [|rewrite truediv_non_numeric by (right; exact Hy); now right].
  destruct (is_zero y) eqn:Hz.
  - (* a zero divisor *)
    destruct y as [|c|z|f| | |]; try discriminate Hy; cbn [is_zero] in Hz.
    + rewrite (QuotientFacts.truediv_by_int_zero x (PyBool c) Hx);
        [done|destruct c; [discriminate Hz|reflexivity]].
    + rewrite (QuotientFacts.truediv_by_int_zero x (PyInt z) Hx);
        [done|apply Z.eqb_eq in Hz; now subst].
    + destruct f as [s| | |]; try discriminate Hz.
      rewrite (truediv_by_float_zero x s Hx).
      destruct (Rounding.to_double x) eqn:E; [done|].
      repeat split. left.
      destruct x; try discriminate Hx; try reflexivity. discriminate E.
  - rewrite (RoundingFacts.truediv_quotient x y Hx Hy Hz).
    destruct (Rounding.quotient x y) as [f|] eqn:E; [eauto|].
    repeat split. unfold Rounding.quotient in E.
    destruct x as [|bx|zx|fx| | |]; try discriminate Hx;
      try (left; reflexivity);
      destruct y as [|c|zy|fy| | |]; try discriminate Hy;
      try (right; reflexivity).
    cbn [as_long Rounding.to_double] in E. discriminate E.
Qed.

(* ===================================================================== *)
(** * More properties of the smoke test *)
(* ===================================================================== *)

Module TestViewsMore.
Import TestViews.

Section More.

Variable constraint : list User -> User -> bool.
Variable users_router : APIRouter.

(** X9: the view check comes first and stops the test: when the route name
    does not resolve, or the response is not 200, the test fails there and
    the database part has not run: no object, no transaction, no row. *)
Theorem test_stops_at_view (client : TestClient) (w : World) :
  (forall e, url_path_for users_router "form_example_get" = Raised e ->
     test_pytest_setup constraint users_router client w = (w, Raised e)) /\
  (forall p, url_path_for users_router "form_example_get" = Returned p ->
     status_code (get client p) <> 200 ->
     test_pytest_setup constraint users_router client w = (w, Raised AssertionError)).
Proof.
  split.
  - intros e He. unfold test_pytest_setup, test_view. run_M. now rewrite He.
  - intros p Hp Hs. unfold test_pytest_setup, test_view, client_get. run_M.
    rewrite Hp. simpl.
    destruct (Z.eqb_spec (status_code (get client p)) 200);
      [contradiction|reflexivity].
Qed.

(** X10: after a passing view check, from a session with no transaction and
    nothing pending, on a table that accepts the row: the test stores exactly
    one row, the user ["test"] under the next identifier of the sequence,
    writes that identifier to the object and advances the sequence; nothing
    is left pending, and the session ends inside the transaction that the
    read of [user.id] began after the commit; the test passes unless that
    identifier is 0. *)
Theorem test_insert_accepted (client : TestClient) (w : World) :
  test_view users_router client w = (w, Returned tt) ->
  released w -> pending (db_session w) = [] ->
  constraint (rows (database w)) new_user = true ->
  test_pytest_setup constraint users_router client w =
    ({| heap := <[fresh (dom (heap w)) := stored_user (sequence (database w))]> (heap w);
        db_session := {| in_transaction := true; pending := [] |};
        database :=
          {| rows := rows (database w) ++ [stored_user (sequence (database w))];
             sequence := sequence (database w) + 1 |} |},
     if sequence (database w) =? 0 then Raised AssertionError else Returned tt).
Proof.
  unfold released. intros Hv Hr Hp Hc.
  unfold test_pytest_setup. unfold mbind at 1. unfold M_bind. rewrite Hv.
  unfold test_db, insert_user, with_, User_new, begin. run_M. rewrite Hr. run_M.
  unfold run_body, add. run_M. unfold commit. simpl. rewrite Hp. simpl.
  rewrite lookup_insert_eq. fold new_user. rewrite Hc. run_M.
  unfold getattr_id. run_M. rewrite lookup_insert_eq. simpl.
  rewrite insert_insert_eq. fold (stored_user (sequence (database w))).
  now destruct (sequence (database w) =? 0).
Qed.

(** X11: when the table refuses the row, [IntegrityError] escapes from the
    [with] block and the test: the table and the sequence are as before, the
    object keeps its [id] unset, and the session is released with nothing
    pending. *)
Theorem test_insert_refused (client : TestClient) (w : World) :
  test_view users_router client w = (w, Returned tt) ->
  released w -> pending (db_session w) = [] ->
  constraint (rows (database w)) new_user = false ->
  test_pytest_setup constraint users_router client w =
    ({| heap := <[fresh (dom (heap w)) := new_user]> (heap w);
        db_session := {| in_transaction := false; pending := [] |};
        database := database w |},
     Raised IntegrityError).
Proof.
  unfold released. intros Hv Hr Hp Hc.
  unfold test_pytest_setup. unfold mbind at 1. unfold M_bind. rewrite Hv.
  unfold test_db, insert_user, with_, User_new, begin. run_M. rewrite Hr. run_M.
  unfold run_body, add. run_M. unfold commit. simpl. rewrite Hp. simpl.
  rewrite lookup_insert_eq. fold new_user. rewrite Hc. run_M.
  reflexivity.
Qed.

End More.

Lemma test_stops_at_view_witness :
  test_pytest_setup unique_username example_router broken_client
    empty_world = (empty_world, Raised AssertionError).
Proof.
  destruct (test_stops_at_view unique_username example_router
              broken_client empty_world) as [_ H].
  apply (H "/users/form/"); [reflexivity|]. intros E. discriminate E.
Defined.

Lemma test_insert_accepted_witness :
  test_pytest_setup unique_username example_router example_client empty_world =
    ({| heap := <[fresh (dom (heap empty_world)) := stored_user 1]> (heap empty_world);
        db_session := {| in_transaction := true; pending := [] |};
        database := {| rows := [stored_user 1]; sequence := 2 |} |},
     Returned tt).
Proof.
  apply (test_insert_accepted unique_username example_router example_client
           empty_world); reflexivity.
Defined.

Lemma test_insert_refused_witness :
  test_pytest_setup unique_username example_router example_client taken_world =
    ({| heap := <[fresh (dom (heap taken_world)) := new_user]> (heap taken_world);
        db_session := {| in_transaction := false; pending := [] |};
        database := database taken_world |},
     Raised IntegrityError).
Proof.
  apply (test_insert_refused unique_username example_router example_client
           taken_world); reflexivity.
Defined.

End TestViewsMore.
